(** * Social-media data-leak monitoring: detection, scoring, correlation, reports

    A shallow embedding of the decision logic of
    [DataLeakDetectionService] (keyword and pattern detection, category
    inference, risk level) and of [AnalyticsEngine] (threat score,
    correlations, overall risk, report cache), with the properties the
    design document states about them; then of the rest of the two
    classes (recommendations, aggregation by type, rankings, timeline,
    dispersion, business impact) and of the bookkeeping of
    [SocialMediaMonitoringService], with properties read off the code.

    Modelling conventions.
    - A JavaScript string is a [string] whose characters are the code
      units 0..255 (Latin-1); [toLowerCase] and case-insensitive matching
      are the ECMAScript ones restricted to that range.
    - A JavaScript number that the code computes from finite numeric
      inputs is an exact rational ([Q]); the results of [Math.round] are
      integers ([Z]).  Where the code can produce [NaN] or an infinity
      (division by the length of an empty array, [Math.max] of nothing)
      the type [num] carries them.  The threat score is computed a
      second time in binary64 ([Binary64]) and the two are compared on
      the integer engagements up to the cap.
    - An object literal used as a dictionary is the list of its own
      properties in creation order ([obj]); [Object.entries] lists the
      array-index keys first, in numeric order, as ECMAScript does.  Keys
      are taken not to name a member inherited from [Object.prototype]
      (such as [constructor]), which a lookup [o[k]] would otherwise find.
    - A thrown exception is the [Throw] case of [result]. *)

From Stdlib Require Import ZArith QArith Qround Lia Lqa Bool List Ascii String.
From Stdlib Require Import Sorting.Sorted Sorting.Permutation.
From Stdlib Require Import Floats.
From stdpp Require Import base option list gmap strings pretty.

Local Open Scope string_scope.
Local Open Scope list_scope.

(** ** JavaScript values *)

Module JS.

Inductive js_error := TypeError.

Inductive result (A : Type) :=
| Ok (a : A)
| Throw (e : js_error).
Arguments Ok {A} a.
Arguments Throw {A} e.

Definition bind {A B} (r : result A) (f : A → result B) : result B :=
  match r with
  | Ok a => f a
  | Throw e => Throw e
  end.

Notation "'try!' x := r 'in' k" := (bind r (λ x, k))
  (at level 10, x name, r at level 100, k at level 200).

(** *** Strings *)

Definition code (c : ascii) : N := N_of_ascii c.

Definition in_range (lo hi : N) (c : ascii) : bool :=
  ((lo <=? code c) && (code c <=? hi))%N.

Definition is_upper_az (c : ascii) : bool := in_range 65 90 c.
Definition is_lower_az (c : ascii) : bool := in_range 97 122 c.
Definition is_digit (c : ascii) : bool := in_range 48 57 c.
Definition is_alnum (c : ascii) : bool :=
  is_upper_az c || is_lower_az c || is_digit c.

(** Upper-case letters of Latin-1: A-Z and the accented capitals
    U+00C0..U+00DE but the multiplication sign U+00D7. *)
Definition has_lower (c : ascii) : bool :=
  is_upper_az c || (in_range 192 222 c && negb (code c =? 215)%N).

(** Lower-case letters of Latin-1 whose capital is in Latin-1. *)
Definition has_upper (c : ascii) : bool :=
  is_lower_az c || (in_range 224 254 c && negb (code c =? 247)%N).

Definition lower_char (c : ascii) : ascii :=
  if has_lower c then ascii_of_N (code c + 32) else c.

Definition upper_char (c : ascii) : ascii :=
  if has_upper c then ascii_of_N (code c - 32) else c.

Fixpoint toLowerCase (s : string) : string :=
  match s with
  | EmptyString => EmptyString
  | String c s' => String (lower_char c) (toLowerCase s')
  end.

Fixpoint starts_with (p s : list ascii) : bool :=
  match p, s with
  | [], _ => true
  | _ :: _, [] => false
  | a :: p', b :: s' => if Ascii.eqb a b then starts_with p' s' else false
  end.

Fixpoint includes_list (s sub : list ascii) : bool :=
  starts_with sub s ||
  match s with
  | [] => false
  | _ :: s' => includes_list s' sub
  end.

(** [s.includes(sub)] *)
Definition includes (s sub : string) : bool :=
  includes_list (list_ascii_of_string s) (list_ascii_of_string sub).

(** [s.substring(0, n)] *)
Definition substring0 (n : nat) (s : string) : string :=
  String.substring 0 n s.

(** Truthiness of a possibly absent string: [undefined] and the empty
    string are falsy. *)
Definition truthy_str (o : option string) : bool :=
  match o with
  | Some s => negb (String.eqb s "")
  | None => false
  end.

(** [[...new Set(l)]]: the distinct elements, each at its first place. *)
Definition set_add {A} `{EqDecision A} (acc : list A) (x : A) : list A :=
  if bool_decide (x ∈ acc) then acc else acc ++ [x].

Definition distinct {A} `{EqDecision A} (l : list A) : list A :=
  fold_left set_add l [].

(** *** Numbers *)

Inductive num :=
| Fin (q : Q)
| NaN
| PosInf
| NegInf.

Definition of_Z (z : Z) : num := Fin (inject_Z z).

(** [a / b] on a finite numerator. *)
Definition div (a b : Z) : num :=
  if (b =? 0)%Z then
    if (a =? 0)%Z then NaN else if (0 <? a)%Z then PosInf else NegInf
  else Fin (inject_Z a / inject_Z b).

(** [Math.round] on a finite number: the nearest integer, halves going
    up. *)
Definition round_Q (q : Q) : Z := Qfloor (q + (1 # 2)).

Definition round (x : num) : num :=
  match x with
  | Fin q => of_Z (round_Q q)
  | other => other
  end.

(** [x >= c]; every comparison with [NaN] is false. *)
Definition ge (x : num) (c : Z) : bool :=
  match x with
  | Fin q => Qle_bool (inject_Z c) q
  | PosInf => true
  | NaN | NegInf => false
  end.

(** [Math.max(...l)] of finite integers; [-Infinity] for no argument. *)
Definition max_of (l : list Z) : num :=
  match l with
  | [] => NegInf
  | x :: l' => of_Z (fold_left Z.max l' x)
  end.

Definition is_NaN (x : num) : bool :=
  match x with
  | NaN => true
  | _ => false
  end.

Definition Qmin (a b : Q) : Q := if Qle_bool a b then a else b.

(** [o || d] for a looked-up number: an absent entry and zero are falsy. *)
Definition or_else (o : option Q) (d : Q) : Q :=
  match o with
  | Some v => if Qeq_bool v 0 then d else v
  | None => d
  end.

(** A rounded number inside a template literal. *)
Definition show (x : num) : string :=
  match x with
  | Fin q => pretty (Qfloor q)
  | NaN => "NaN"
  | PosInf => "Infinity"
  | NegInf => "-Infinity"
  end.

(** *** Arrays *)

(** [l.sort(cmp)]: the stable sort the language prescribes, [x] going
    after [y] when [cmp x y] is positive. *)
Fixpoint sort_insert {A} (cmp : A → A → Z) (x : A) (l : list A) : list A :=
  match l with
  | [] => [x]
  | y :: l' =>
      if (0 <? cmp x y)%Z then y :: sort_insert cmp x l' else x :: l
  end.

Definition sort {A} (cmp : A → A → Z) (l : list A) : list A :=
  foldr (sort_insert cmp) [] l.

(** [x] may stand before [y] under the comparator. *)
Definition before {A} (cmp : A → A → Z) (x y : A) : Prop := (cmp x y <= 0)%Z.

(** *** Objects used as dictionaries *)

Definition obj (V : Type) : Type := list (string * V).

Fixpoint obj_get {V} (o : obj V) (k : string) : option V :=
  match o with
  | [] => None
  | (k', v) :: o' => if String.eqb k k' then Some v else obj_get o' k
  end.

(** [o[k] = v]: an existing property keeps its place. *)
Fixpoint obj_set {V} (o : obj V) (k : string) (v : V) : obj V :=
  match o with
  | [] => [(k, v)]
  | (k', v') :: o' =>
      if String.eqb k k' then (k, v) :: o' else (k', v') :: obj_set o' k v
  end.

Fixpoint digits_value (acc : N) (l : list ascii) : option N :=
  match l with
  | [] => Some acc
  | c :: l' =>
      if is_digit c then digits_value (acc * 10 + (code c - 48))%N l'
      else None
  end.

(** A key is an array index when it is the decimal writing, without a
    leading zero, of an integer below 2^32 - 1. *)
Definition array_index (k : string) : option N :=
  match list_ascii_of_string k with
  | [] => None
  | c :: l =>
      if Ascii.eqb c "0" && negb (bool_decide (l = [])) then None
      else
        match digits_value 0 (c :: l) with
        | Some n => if (n <? 4294967295)%N then Some n else None
        | None => None
        end
  end.

Definition by_index {V} (a b : N * (string * V)) : Z :=
  (Z.of_N a.1 - Z.of_N b.1)%Z.

Definition indexed {V} (o : obj V) : list (N * (string * V)) :=
  omap (λ kv, match array_index kv.1 with
              | Some n => Some (n, kv)
              | None => None
              end) o.

(** [Object.entries(o)]: array indices in ascending order, then the
    other keys in creation order. *)
Definition obj_entries {V} (o : obj V) : list (string * V) :=
  (sort by_index (indexed o)).*2
    ++ List.filter (λ kv, bool_decide (array_index kv.1 = None)) o.

Definition obj_keys {V} (o : obj V) : list string := (obj_entries o).*1.
Definition obj_values {V} (o : obj V) : list V := (obj_entries o).*2.

End JS.

(** ** Regular expressions

    The fragment of ECMAScript regular expressions the service uses:
    character classes, sequence, alternation, greedy bounded and unbounded
    repetition and the word boundary.  The matcher is the backtracking
    matcher of the language definition, in continuation-passing style:
    alternatives are tried left to right and a repetition takes as many
    rounds as it can before it gives one back.  The capture groups of the
    source patterns enclose the whole pattern or are not read, so that
    they are not modelled. *)

Module Regex.
Import JS.

Inductive regex :=
| Eps
| Class (p : ascii → bool)
| Seq (r1 r2 : regex)
| Alt (r1 r2 : regex)
| Rep (lo : nat) (hi : option nat) (r : regex)
| WordBoundary.

(** [\w] *)
Definition is_word (c : ascii) : bool := is_alnum c || (code c =? 95)%N.

(** [\s] within Latin-1: TAB, LF, VT, FF, CR, space and NBSP. *)
Definition is_space (c : ascii) : bool :=
  in_range 9 13 c || (code c =? 32)%N || (code c =? 160)%N.

Definition is_word_at (o : option ascii) : bool :=
  match o with
  | Some c => is_word c
  | None => false
  end.

Definition may_repeat (hi : option nat) (n : nat) : bool :=
  match hi with
  | None => true
  | Some h => (n <? h)%nat
  end.

(** [run r prev s k]: match [r] at the head of [s], the character before
    it being [prev], and hand the position reached to [k]; the first
    success is the answer.  A round of a repetition beyond the required
    ones must consume input. *)
Fixpoint run {A} (r : regex) (prev : option ascii) (s : list ascii)
    (k : option ascii → list ascii → option A) : option A :=
  match r with
  | Eps => k prev s
  | Class p =>
      match s with
      | c :: s' => if p c then k (Some c) s' else None
      | [] => None
      end
  | Seq r1 r2 => run r1 prev s (λ prev' s', run r2 prev' s' k)
  | Alt r1 r2 =>
      match run r1 prev s k with
      | Some x => Some x
      | None => run r2 prev s k
      end
  | Rep lo hi r' =>
      (fix rounds (fuel n : nat) (prev : option ascii) (s : list ascii)
         : option A :=
         let stop := if (lo <=? n)%nat then k prev s else None in
         match fuel with
         | O => stop
         | S fuel' =>
             if may_repeat hi n then
               match
                 run r' prev s (λ prev' s',
                   if (n <? lo)%nat || (List.length s' <? List.length s)%nat
                   then rounds fuel' (S n) prev' s'
                   else None)
               with
               | Some x => Some x
               | None => stop
               end
             else stop
         end) (lo + List.length s)%nat 0%nat prev s
  | WordBoundary =>
      if xorb (is_word_at prev) (is_word_at (head s)) then k prev s else None
  end.

(** The input left after the match of [r] that starts here, if any. *)
Definition match_here (r : regex) (prev : option ascii) (s : list ascii)
  : option (list ascii) :=
  run r prev s (λ _ rest, Some rest).

(** The matches of a global pattern from left to right, each with the
    index it starts at; the search resumes where the last match ended
    (one further on after an empty match). *)
Fixpoint scan (fuel : nat) (r : regex) (pos : nat) (prev : option ascii)
    (s : list ascii) : list (nat * string) :=
  match fuel with
  | O => []
  | S fuel' =>
      match match_here r prev s with
      | Some rest =>
          let n := (List.length s - List.length rest)%nat in
          let m := take n s in
          if (n =? 0)%nat then
            match s with
            | [] => [(pos, string_of_list_ascii m)]
            | c :: s' =>
                (pos, string_of_list_ascii m)
                  :: scan fuel' r (S pos) (Some c) s'
            end
          else
            (pos, string_of_list_ascii m)
              :: scan fuel' r (pos + n)%nat (last m) rest
      | None =>
          match s with
          | [] => []
          | c :: s' => scan fuel' r (S pos) (Some c) s'
          end
      end
  end.

Definition exec_all (r : regex) (s : string) : list (nat * string) :=
  let l := list_ascii_of_string s in
  scan (S (List.length l)) r 0%nat None l.

(** [s.match(/r/g) || []] *)
Definition match_all (r : regex) (s : string) : list string :=
  (exec_all r s).*2.

(** [s.match(/r/)] taken as a condition: is there a match anywhere? *)
Fixpoint found (r : regex) (prev : option ascii) (s : list ascii) : bool :=
  match match_here r prev s with
  | Some _ => true
  | None =>
      match s with
      | [] => false
      | c :: s' => found r (Some c) s'
      end
  end.

Definition test (r : regex) (s : string) : bool :=
  found r None (list_ascii_of_string s).

(** *** Pattern combinators *)

Definition chr (c : ascii) : regex := Class (Ascii.eqb c).

(** A character under the [i] flag: equal after canonicalisation. *)
Definition chr_i (c : ascii) : regex :=
  Class (λ d, Ascii.eqb (upper_char c) (upper_char d)).

Fixpoint lit_chars (f : ascii → regex) (l : list ascii) : regex :=
  match l with
  | [] => Eps
  | [c] => f c
  | c :: l' => Seq (f c) (lit_chars f l')
  end.

(** A pattern without metacharacters, with and without the [i] flag. *)
Definition lit (s : string) : regex := lit_chars chr (list_ascii_of_string s).
Definition lit_i (s : string) : regex :=
  lit_chars chr_i (list_ascii_of_string s).

Definition one_of (s : string) (c : ascii) : bool :=
  existsb (Ascii.eqb c) (list_ascii_of_string s).

Definition opt (r : regex) : regex := Rep 0 (Some 1) r.
Definition plus (r : regex) : regex := Rep 1 None r.
Definition star (r : regex) : regex := Rep 0 None r.
Definition exactly (n : nat) (r : regex) : regex := Rep n (Some n) r.
Definition at_least (n : nat) (r : regex) : regex := Rep n None r.
Definition between (lo hi : nat) (r : regex) : regex := Rep lo (Some hi) r.

Fixpoint seqs (l : list regex) : regex :=
  match l with
  | [] => Eps
  | [r] => r
  | r :: l' => Seq r (seqs l')
  end.

End Regex.

(** ** DataLeakDetectionService *)

Module Detection.
Import JS Regex.

Inductive level := critical | high | medium | low.

#[global] Instance level_eq_dec : EqDecision level.
Proof. solve_decision. Defined.

Definition monitoredKeywords : list string :=
  [ "credentials"; "API key"; "password"; "secret"; "token"; "database";
    "schema"; "employee records"; "customer data"; "confidential";
    "proprietary"; "source code"; "vulnerability"; "exploit"; "breach" ].

Record occurrence := { text : string; index : nat }.

Record keyword_match := {
  keyword : string;
  kw_count : nat;
  occurrences : list occurrence;
}.

Inductive pattern_type :=
| API_KEY | IP_ADDRESS | EMAIL_ADDRESS | CREDIT_CARD | DATABASE_CONNECTION.

#[global] Instance pattern_type_eq_dec : EqDecision pattern_type.
Proof. solve_decision. Defined.

Record pattern := {
  type : pattern_type;
  severity : level;
  matches : list string;
  count : nat;
}.

(** *** The patterns of the source *)

Definition digit : regex := Class is_digit.

(** [/([A-Za-z0-9]{32,})/g] *)
Definition api_key_re : regex := at_least 32 (Class is_alnum).

(** [/(?:[0-9]{1,3}\.){3}[0-9]{1,3}/g] *)
Definition ip_re : regex :=
  Seq (exactly 3 (Seq (between 1 3 digit) (chr "."))) (between 1 3 digit).

(** [/[a-zA-Z0-9._%+-]+@[a-zA-Z0-9.-]+\.[a-zA-Z]{2,}/g] *)
Definition email_re : regex :=
  seqs [ plus (Class (λ c, is_alnum c || one_of "._%+-" c));
         chr "@";
         plus (Class (λ c, is_alnum c || one_of ".-" c));
         chr ".";
         at_least 2 (Class (λ c, is_lower_az c || is_upper_az c)) ].

(** [/\b[0-9]{4}[\s-]?[0-9]{4}[\s-]?[0-9]{4}[\s-]?[0-9]{4}\b/g] *)
Definition credit_card_re : regex :=
  let sep := opt (Class (λ c, is_space c || one_of "-" c)) in
  seqs [ WordBoundary; exactly 4 digit; sep; exactly 4 digit; sep;
         exactly 4 digit; sep; exactly 4 digit; WordBoundary ].

(** [/mongodb|postgresql|mysql|oracle/i] *)
Definition database_re : regex :=
  Alt (lit_i "mongodb")
    (Alt (lit_i "postgresql") (Alt (lit_i "mysql") (lit_i "oracle"))).

(** [new RegExp(keyword, 'gi')]; no monitored keyword holds a
    metacharacter. *)
Definition keyword_re (kw : string) : regex := lit_i kw.

(** The keyword between two greedy runs of non-space characters, as one
    group, under the flags [gi]. *)
Definition occurrence_re (kw : string) : regex :=
  let non_space := Class (λ c, negb (is_space c)) in
  seqs [ star non_space; lit_i kw; star non_space ].

(** *** Detection *)

Definition findOccurrences (content kw : string) : list occurrence :=
  map (λ m, {| text := m.2; index := m.1 |})
      (exec_all (occurrence_re kw) content).

Definition detectKeywords (content : string) : list keyword_match :=
  let lowerContent := toLowerCase content in
  fold_left
    (λ found kw,
       if includes lowerContent (toLowerCase kw) then
         found ++ [ {| keyword := kw;
                       kw_count :=
                         List.length (match_all (keyword_re kw) content);
                       occurrences := findOccurrences content kw |} ]
       else found)
    monitoredKeywords [].

Definition detectSuspiciousPatterns (content : string) : list pattern :=
  let patterns := [] in
  let apiKeyMatches := match_all api_key_re content in
  let patterns :=
    if (0 <? List.length apiKeyMatches)%nat then
      patterns ++ [ {| type := API_KEY; severity := critical;
                       matches := take 5 apiKeyMatches;
                       count := List.length apiKeyMatches |} ]
    else patterns in
  let ipMatches := match_all ip_re content in
  let patterns :=
    if (0 <? List.length ipMatches)%nat then
      patterns ++ [ {| type := IP_ADDRESS; severity := high;
                       matches := ipMatches;
                       count := List.length ipMatches |} ]
    else patterns in
  let emailMatches := match_all email_re content in
  let patterns :=
    if (0 <? List.length emailMatches)%nat then
      patterns ++ [ {| type := EMAIL_ADDRESS; severity := medium;
                       matches := take 5 emailMatches;
                       count := List.length emailMatches |} ]
    else patterns in
  let ccMatches := match_all credit_card_re content in
  let patterns :=
    if (0 <? List.length ccMatches)%nat then
      patterns ++ [ {| type := CREDIT_CARD; severity := critical;
                       matches := ccMatches;
                       count := List.length ccMatches |} ]
    else patterns in
  let patterns :=
    if test database_re content then
      patterns ++ [ {| type := DATABASE_CONNECTION; severity := critical;
                       matches := ["Potential database credentials found"];
                       count := 1 |} ]
    else patterns in
  patterns.

Definition add_if (b : bool) (x : string) (set : list string) : list string :=
  if b then set_add set x else set.

Definition classifyDataExposure (content : string)
    (keywords : list keyword_match) : list string :=
  let dataTypes :=
    fold_left
      (λ dataTypes kw,
         let keyword := toLowerCase (keyword kw) in
         let dataTypes :=
           add_if (includes keyword "employee" || includes keyword "staff")
                  "Employee Information" dataTypes in
         let dataTypes :=
           add_if (includes keyword "customer" || includes keyword "user")
                  "Customer Records" dataTypes in
         let dataTypes :=
           add_if (includes keyword "api" || includes keyword "key")
                  "API Keys/Secrets" dataTypes in
         let dataTypes :=
           add_if (includes keyword "database" || includes keyword "schema")
                  "Database Schema" dataTypes in
         let dataTypes :=
           add_if (includes keyword "password"
                   || includes keyword "credentials")
                  "Authentication Credentials" dataTypes in
         let dataTypes :=
           add_if (includes keyword "source" || includes keyword "code")
                  "Source Code" dataTypes in
         add_if (includes keyword "financial" || includes keyword "salary")
                "Financial Data" dataTypes)
      keywords [] in
  let contentLower := toLowerCase content in
  let dataTypes :=
    add_if (includes contentLower "salary" || includes contentLower "payment")
           "Financial Data" dataTypes in
  let dataTypes :=
    add_if (includes contentLower "vulnerability"
            || includes contentLower "exploit")
           "Security Vulnerability" dataTypes in
  add_if (includes contentLower "project" || includes contentLower "roadmap")
         "Strategic Information" dataTypes.

(** The score [calculateRiskLevel] accumulates before it picks a level. *)
Definition riskScore (keywords : list keyword_match) (patterns : list pattern)
    (dataTypes : list string) : nat :=
  let riskScore := 0%nat in
  let riskScore :=
    fold_left
      (λ riskScore p,
         match severity p with
         | critical => riskScore + 40
         | high => riskScore + 25
         | medium => riskScore + 15
         | low => riskScore
         end%nat)
      patterns riskScore in
  let keywordCount := fold_left (λ sum kw, sum + kw_count kw)%nat keywords 0%nat in
  let riskScore := (riskScore + Nat.min (keywordCount * 5) 30)%nat in
  (riskScore + List.length dataTypes * 8)%nat.

Definition calculateRiskLevel (keywords : list keyword_match)
    (patterns : list pattern) (dataTypes : list string) : level :=
  let riskScore := riskScore keywords patterns dataTypes in
  if (70 <=? riskScore)%nat then critical
  else if (50 <=? riskScore)%nat then high
  else if (30 <=? riskScore)%nat then medium
  else low.

Definition calculateConfidenceScore (keywords : list keyword_match)
    (patterns : list pattern) : nat :=
  let confidence := 0%nat in
  let confidence :=
    (confidence + Nat.min (List.length patterns * 15) 50)%nat in
  let confidence :=
    (confidence + Nat.min (List.length keywords * 5) 30)%nat in
  let confidence :=
    if (0 <? List.length patterns)%nat then (confidence + 10)%nat
    else confidence in
  let confidence :=
    if (3 <? List.length keywords)%nat then (confidence + 10)%nat
    else confidence in
  Nat.min confidence 100.

Record analysis := {
  timestamp : string;
  platform : string;
  username : string;
  originalContent : string;
  riskLevel : level;
  dataExposed : list string;
  matchedKeywords : list keyword_match;
  suspiciousElements : list pattern;
  confidenceScore : nat;
}.

Definition analyzeSocialMediaContent (content platform username timestamp
    : string) : analysis :=
  let keywordMatches := detectKeywords content in
  let patterns := detectSuspiciousPatterns content in
  let dataTypes := classifyDataExposure content keywordMatches in
  {| timestamp := timestamp;
     platform := platform;
     username := username;
     originalContent := content;
     riskLevel := calculateRiskLevel keywordMatches patterns dataTypes;
     dataExposed := dataTypes;
     matchedKeywords := keywordMatches;
     suspiciousElements := patterns;
     confidenceScore := calculateConfidenceScore keywordMatches patterns |}.



(** *** Recommendations and the incident report *)

Record recommendation := {
  priority : string;
  action : string;
  target : string;
}.

Definition push_if {A} (b : bool) (x : A) (l : list A) : list A :=
  if b then l ++ [x] else l.

Definition generateRecommendations (a : analysis) : list recommendation :=
  let recommendations := [] in
  let recommendations :=
    if bool_decide (riskLevel a = critical) then
      recommendations
        ++ [ {| priority := "URGENT";
                action := "Immediately revoke and rotate all exposed credentials";
                target := "Security Team" |};
             {| priority := "URGENT";
                action := "Issue press release acknowledging the data exposure";
                target := "PR/Communications" |} ]
    else recommendations in
  let recommendations :=
    push_if (existsb (λ el, bool_decide (type el = API_KEY))
                     (suspiciousElements a))
      {| priority := "HIGH";
         action := "Regenerate all exposed API keys immediately";
         target := "DevOps/Security" |} recommendations in
  let recommendations :=
    push_if (existsb (λ el, bool_decide (type el = CREDIT_CARD))
                     (suspiciousElements a))
      {| priority := "CRITICAL";
         action := "Contact payment processor and file fraud report";
         target := "Finance/Legal" |} recommendations in
  let recommendations :=
    push_if (bool_decide ("Employee Information" ∈ dataExposed a))
      {| priority := "HIGH";
         action := "Notify affected employees and offer credit monitoring";
         target := "HR" |} recommendations in
  let recommendations :=
    push_if (bool_decide ("Customer Records" ∈ dataExposed a))
      {| priority := "HIGH";
         action := "Prepare customer notification and breach disclosure";
         target := "Legal/Compliance" |} recommendations in
  recommendations
    ++ [ {| priority := "MEDIUM";
            action := String.append "Request content removal from " (platform a);
            target := "Social Media Management" |};
         {| priority := "MEDIUM";
            action := "File incident report and document for audit trail";
            target := "Risk Management" |} ].

Record aggregated := {
  rec : recommendation;
  frequency : nat;
  relatedIncidents : list (string * string);
}.

Definition aggregateRecommendations (leakAnalyses : list analysis)
  : list aggregated :=
  let recommendationMap : obj aggregated :=
    fold_left
      (λ recommendationMap a,
         fold_left
           (λ (recommendationMap : obj aggregated) r,
              let key := action r in
              let entry :=
                match obj_get recommendationMap key with
                | Some e => e
                | None => {| rec := r; frequency := 0;
                             relatedIncidents := [] |}
                end in
              obj_set recommendationMap key
                {| rec := rec entry;
                   frequency := frequency entry + 1;
                   relatedIncidents :=
                     relatedIncidents entry ++ [(platform a, username a)] |})
           (generateRecommendations a) recommendationMap)
      leakAnalyses [] in
  take 10
    (sort (λ a b, Z.of_nat (frequency b) - Z.of_nat (frequency a))%Z
          (obj_values recommendationMap)).

Definition severityMap (l : level) : Z :=
  match l with
  | critical => 4
  | high => 3
  | medium => 2
  | low => 1
  end.

Record top_threat := {
  rank : nat;
  top_platform : string;
  top_username : string;
  top_riskLevel : level;
  top_dataExposed : list string;
  top_confidenceScore : nat;
}.

(** The comparator handed to [sort]. *)
Definition by_severity (a b : analysis) : Z :=
  (severityMap (riskLevel b) - severityMap (riskLevel a))%Z.

(** [identifyTopThreats] calls [sort] on the array it is given, which
    reorders that very array; [slice] and [map] then build new arrays.
    The second component is the content of the caller's array when the
    method returns. *)
Definition identifyTopThreats (leakAnalyses : list analysis)
  : list top_threat * list analysis :=
  let leakAnalyses := sort by_severity leakAnalyses in
  (imap (λ index threat,
           {| rank := index + 1;
              top_platform := platform threat;
              top_username := username threat;
              top_riskLevel := riskLevel threat;
              top_dataExposed := dataExposed threat;
              top_confidenceScore := confidenceScore threat |})
        (take 5 leakAnalyses),
   leakAnalyses).

Record report := {
  generated : Z;
  timeframe : string;
  totalIncidents : nat;
  criticalIncidents : nat;
  highRiskIncidents : nat;
  affectedPlatforms : list string;
  dataTypesExposed : list string;
  topThreats : list top_threat;
  recommendations : list aggregated;
}.

(** The report and the content of the caller's array afterwards.  The
    properties of the object literal are evaluated in the order written:
    the counts and the two sets read the array as the caller left it,
    [identifyTopThreats] then sorts it, and [aggregateRecommendations]
    reads it sorted.  [now] is the clock read by [new Date()]. *)
Definition generateThreatReport (now : Z) (leakAnalyses : list analysis)
    (timeframe : string) : report * list analysis :=
  let totalIncidents := List.length leakAnalyses in
  let criticalIncidents :=
    List.length
      (List.filter (λ l, bool_decide (riskLevel l = critical)) leakAnalyses) in
  let highRiskIncidents :=
    List.length
      (List.filter (λ l, bool_decide (riskLevel l = high)) leakAnalyses) in
  let affectedPlatforms := distinct (map platform leakAnalyses) in
  let dataTypesExposed := distinct (flat_map dataExposed leakAnalyses) in
  let '(topThreats, leakAnalyses) := identifyTopThreats leakAnalyses in
  let recommendations := aggregateRecommendations leakAnalyses in
  ({| generated := now;
      timeframe := timeframe;
      totalIncidents := totalIncidents;
      criticalIncidents := criticalIncidents;
      highRiskIncidents := highRiskIncidents;
      affectedPlatforms := affectedPlatforms;
      dataTypesExposed := dataTypesExposed;
      topThreats := topThreats;
      recommendations := recommendations |},
   leakAnalyses).

(** *** Leaks by type *)

(** [determineSeverity] has a rank table of its own, the same as the one
    of [identifyTopThreats]. *)
Definition determineSeverity (current incoming : level) : level :=
  if (severityMap current <? severityMap incoming)%Z then incoming
  else current.

(** An entry of the aggregation while it is built; [leak_platforms] is
    the [Set], in insertion order. *)
Record leak_group := {
  leak_type : string;
  instances : nat;
  leak_platforms : list string;
  leak_severity : level;
  records : nat;
}.

(** An entry as it is returned: the group, its platforms as an array,
    and their number. *)
Record leak_summary := {
  group : leak_group;
  platformCount : nat;
}.

Definition aggregateLeaksByType (leakAnalyses : list analysis)
  : list leak_summary :=
  let aggregation : obj leak_group :=
    fold_left
      (λ aggregation a,
         fold_left
           (λ (aggregation : obj leak_group) dataType,
              let entry :=
                match obj_get aggregation dataType with
                | Some e => e
                | None => {| leak_type := dataType; instances := 0;
                             leak_platforms := []; leak_severity := low;
                             records := 0 |}
                end in
              obj_set aggregation dataType
                {| leak_type := leak_type entry;
                   instances := instances entry + 1;
                   leak_platforms :=
                     set_add (leak_platforms entry) (platform a);
                   leak_severity :=
                     determineSeverity (leak_severity entry) (riskLevel a);
                   records := records entry |})
           (dataExposed a) aggregation)
      leakAnalyses [] in
  map (λ item,
         {| group := item;
            platformCount := List.length (leak_platforms item) |})
      (obj_values aggregation).

End Detection.

(** ** AnalyticsEngine *)

Module Analytics.
Import JS.

(** A threat record as the engine reads it.  [dataType] and
    [dateDetected] may be absent. *)
Record threat := {
  platform : string;
  username : string;
  engagement : Q;
  riskLevel : string;
  dataType : option string;
  dateDetected : option string;
}.

Definition riskScores : obj Q :=
  [ ("critical", 40); ("high", 30); ("medium", 20); ("low", 10) ]%Q.

Definition platformReachFactors : obj Q :=
  [ ("github", 15 # 10); ("twitter", 13 # 10); ("reddit", 12 # 10);
    ("linkedin", 11 # 10); ("darkweb", 2); ("facebook", 1);
    ("instagram", 8 # 10) ]%Q.

Definition sensitiveDataTypes : list string :=
  [ "API Keys"; "Customer Records"; "Financial Data"; "Database Schema" ].

(** [threat.dataType && sensitiveDataTypes.some(dt => threat.dataType.includes(dt))] *)
Definition is_sensitive (dataType : option string) : bool :=
  match dataType with
  | Some d =>
      truthy_str dataType && existsb (λ dt, includes d dt) sensitiveDataTypes
  | None => false
  end.

Definition calculateThreatScore (t : threat) : Z :=
  let score := 0%Q in
  let score := (score + or_else (obj_get riskScores (riskLevel t)) 0)%Q in
  let engagementScore := Qmin (engagement t / 1000 * 20) 20 in
  let score := (score + engagementScore)%Q in
  let platformFactor :=
    or_else (obj_get platformReachFactors (toLowerCase (platform t))) 1 in
  let score := (score * platformFactor)%Q in
  let score := if is_sensitive (dataType t) then (score + 15)%Q else score in
  Z.min (round_Q score) 100.

(** *** Correlations *)

Inductive correlation :=
| MULTI_PLATFORM_EXPOSURE (dataType : string)
    (affectedPlatforms : list string) (instanceCount : nat)
    (description : string)
| REPEAT_OFFENDER (username : string) (threatCount : nat)
    (platforms : list string) (description : string).

(** [if (!m[k]) m[k] = []; m[k].push(t)] *)
Definition group_push (m : obj (list threat)) (k : string) (t : threat)
  : obj (list threat) :=
  let m := if bool_decide (obj_get m k = None) then obj_set m k [] else m in
  obj_set m k (default [] (obj_get m k) ++ [t]).

Definition identifyCorrelations (threats : list threat) : list correlation :=
  let correlations := [] in
  let dataTypeMap :=
    fold_left
      (λ dataTypeMap t,
         match dataType t with
         | Some d =>
             if truthy_str (dataType t) then group_push dataTypeMap d t
             else dataTypeMap
         | None => dataTypeMap
         end)
      threats [] in
  let correlations :=
    fold_left
      (λ correlations '(dataType, threatList),
         if (1 <? List.length threatList)%nat then
           let platforms := distinct (map platform threatList) in
           if (1 <? List.length platforms)%nat then
             correlations
               ++ [ MULTI_PLATFORM_EXPOSURE dataType platforms
                      (List.length threatList)
                      (String.concat ""
                         [ dataType; " exposed across ";
                           pretty (List.length platforms); " platforms" ]) ]
           else correlations
         else correlations)
      (obj_entries dataTypeMap) correlations in
  let userMap :=
    fold_left (λ userMap t, group_push userMap (username t) t) threats [] in
  let correlations :=
    fold_left
      (λ correlations '(username, threatList),
         if (1 <? List.length threatList)%nat then
           correlations
             ++ [ REPEAT_OFFENDER username (List.length threatList)
                    (distinct (map platform threatList))
                    (String.concat ""
                       [ "User "; username; " involved in ";
                         pretty (List.length threatList);
                         " threat incidents" ]) ]
         else correlations)
      (obj_entries userMap) correlations in
  correlations.

(** *** Overall risk *)

Inductive overall := LOW | MEDIUM | HIGH | CRITICAL.

Record action_item := {
  priority : nat;
  action : string;
  action_timeframe : string;
  owner : string;
}.

Definition push_if {A} (b : bool) (x : A) (l : list A) : list A :=
  if b then l ++ [x] else l.

Definition has_type (sub : string) (t : threat) : bool :=
  match dataType t with
  | Some d => truthy_str (dataType t) && includes d sub
  | None => false
  end.

Definition getImmediateActions (threats : list threat) : list action_item :=
  let actions := [] in
  let actions :=
    push_if (existsb (has_type "API") threats)
      {| priority := 1; action := "Revoke all exposed API keys";
         action_timeframe := "IMMEDIATE"; owner := "Security Team" |}
      actions in
  let actions :=
    push_if (existsb (has_type "Customer") threats)
      {| priority := 2; action := "Initiate customer breach notification";
         action_timeframe := "24 hours"; owner := "Legal/PR" |}
      actions in
  let viralThreats :=
    List.filter (λ t, negb (Qle_bool (engagement t) 5000)) threats in
  let actions :=
    push_if (0 <? List.length viralThreats)%nat
      {| priority := 3; action := "Launch crisis communication response";
         action_timeframe := "4 hours"; owner := "Communications" |}
      actions in
  let actions :=
    push_if (existsb (λ t, String.eqb (platform t) "Dark Web") threats)
      {| priority := 1; action := "Engage dark web monitoring specialists";
         action_timeframe := "IMMEDIATE"; owner := "Threat Intelligence" |}
      actions in
  sort (λ a b, Z.of_nat (priority a) - Z.of_nat (priority b))%Z actions.

Record risk_assessment := {
  level : overall;
  score : num;
  maxScore : num;
  riskFactors : list string;
  immediateActions : list action_item;
}.

Definition critical_count (threats : list threat) : nat :=
  List.length (List.filter (λ t, String.eqb (riskLevel t) "critical") threats).

Definition assessOverallRisk (threats : list threat) : risk_assessment :=
  let scores := map calculateThreatScore threats in
  let avgScore :=
    div (fold_left Z.add scores 0%Z) (Z.of_nat (List.length scores)) in
  let maxScore := max_of scores in
  let criticalCount := critical_count threats in
  let overallRisk :=
    if ge maxScore 80 || (5 <=? criticalCount)%nat then CRITICAL
    else if ge avgScore 60 || (2 <=? criticalCount)%nat then HIGH
    else if ge avgScore 40 then MEDIUM
    else LOW in
  {| level := overallRisk;
     score := round avgScore;
     maxScore := round maxScore;
     riskFactors :=
       [ String.append (pretty criticalCount) " critical threats detected";
         String.concat ""
           [ "Average threat score: "; show (round avgScore); "/100" ];
         String.concat ""
           [ "Maximum threat score: "; show (round maxScore); "/100" ];
         String.append "Total unique platforms affected: "
           (pretty (List.length (distinct (map platform threats)))) ];
     immediateActions := getImmediateActions threats |}.

(** *** Report *)

Record summary := {
  totalThreats : nat;
  criticalCount : nat;
  highCount : nat;
  uniquePlatforms : nat;
  uniqueDataTypes : nat;
  averageThreatScore : num;
}.

Definition summarize (threats : list threat) : summary :=
  {| totalThreats := List.length threats;
     criticalCount := critical_count threats;
     highCount :=
       List.length
         (List.filter (λ t, String.eqb (riskLevel t) "high") threats);
     uniquePlatforms := List.length (distinct (map platform threats));
     uniqueDataTypes := List.length (distinct (map dataType threats));
     averageThreatScore :=
       round
         (div (fold_left (λ sum t, sum + calculateThreatScore t)%Z threats 0%Z)
              (Z.of_nat (List.length threats))) |}.

Record ranked_threat := {
  rank : nat;
  ranked : threat;
  threatScore : Z;
}.

Definition identifyTopThreats (threats : list threat) (limit : nat)
  : list ranked_threat :=
  let scored := map (λ t, (t, calculateThreatScore t)) threats in
  let sorted := sort (λ a b, b.2 - a.2)%Z scored in
  imap (λ index ts,
          {| rank := index + 1; ranked := ts.1; threatScore := ts.2 |})
       (take limit sorted).

Record platform_tally := { count : nat; totalScore : Z }.
Record type_tally := { type_count : nat; type_platforms : list string }.

(** The tallies by hour and by day of the week, which read the host's
    time zone through [Date], are left out. *)
Record patterns := {
  byPlatform : obj platform_tally;
  byDataType : obj type_tally;
  byRiskLevel : obj nat;
  correlations : list correlation;
}.

Definition analyzeThreatPatterns (threats : list threat) : patterns :=
  let '(byPlatform, byDataType, byRiskLevel) :=
    fold_left
      (λ '(byPlatform, byDataType, byRiskLevel) t,
         let tally :=
           default {| count := 0; totalScore := 0 |}
                   (obj_get byPlatform (platform t)) in
         let byPlatform :=
           obj_set byPlatform (platform t)
             {| count := count tally + 1;
                totalScore := totalScore tally + calculateThreatScore t |} in
         let byDataType :=
           match dataType t with
           | Some d =>
               if truthy_str (dataType t) then
                 let tally :=
                   default {| type_count := 0; type_platforms := [] |}
                           (obj_get byDataType d) in
                 obj_set byDataType d
                   {| type_count := type_count tally + 1;
                      type_platforms :=
                        set_add (type_platforms tally) (platform t) |}
               else byDataType
           | None => byDataType
           end in
         let byRiskLevel :=
           obj_set byRiskLevel (riskLevel t)
             (default 0%nat (obj_get byRiskLevel (riskLevel t)) + 1)%nat in
         (byPlatform, byDataType, byRiskLevel))
      threats ([], [], []) in
  {| byPlatform := byPlatform;
     byDataType := byDataType;
     byRiskLevel := byRiskLevel;
     correlations := identifyCorrelations threats |}.

Record checklist := { within : string; actions : list string }.

Definition generateActionItems : list checklist :=
  [ {| within := "IMMEDIATE (0-2 hours)";
       actions :=
         [ "Alert security operations center (SOC)";
           "Notify CISO and executive leadership";
           "Begin threat intelligence assessment";
           "Prepare crisis communication template" ] |};
    {| within := "SHORT-TERM (2-24 hours)";
       actions :=
         [ "Conduct full damage assessment";
           "Identify all affected systems and data";
           "Begin incident response procedures";
           "Activate external incident response teams if needed";
           "Prepare customer/stakeholder notification" ] |};
    {| within := "MEDIUM-TERM (1-7 days)";
       actions :=
         [ "Complete root cause analysis";
           "Implement temporary mitigations";
           "Execute customer notification campaign";
           "File incident reports with regulators if required";
           "Update security posture" ] |} ].

Inductive dispersion_level := DISP_LOW | DISP_MEDIUM | DISP_HIGH.

(** [variance] stands for the standard deviation, its square root, which
    the source prints with two decimals; the level compares the variance
    with the squares of the source's thresholds. *)
Record dispersion := {
  platformCount : nat;
  distribution : obj nat;
  variance : num;
  dispersionLevel : dispersion_level;
}.

Definition gt (x : num) (c : Z) : bool :=
  match x with
  | Fin q => negb (Qle_bool q (inject_Z c))
  | PosInf => true
  | NaN | NegInf => false
  end.

Definition calculateDispersion (threats : list threat) : dispersion :=
  let platformCounts :=
    fold_left
      (λ platformCounts t,
         obj_set platformCounts (platform t)
           (default 0%nat (obj_get platformCounts (platform t)) + 1)%nat)
      threats [] in
  let values := map (λ v, inject_Z (Z.of_nat v)) (obj_values platformCounts) in
  let n := inject_Z (Z.of_nat (List.length values)) in
  let variance :=
    match values with
    | [] => NaN
    | _ =>
        let avg := (fold_left Qplus values 0 / n)%Q in
        Fin (fold_left (λ sum val, sum + (val - avg) * (val - avg))%Q values 0
             / n)%Q
    end in
  {| platformCount := List.length (obj_keys platformCounts);
     distribution := platformCounts;
     variance := variance;
     dispersionLevel :=
       if gt variance 25 then DISP_HIGH
       else if gt variance 4 then DISP_MEDIUM
       else DISP_LOW |}.

Inductive trend_kind := UP | DOWN | STABLE.

Record timeline_analysis := {
  dateRange : option string * option string;
  threatsPerDay : obj nat;
  trend : trend_kind;
  peakDay : string;
}.

(** The default order of [sort()] on strings: by code units. *)
Definition by_code_units (a b : string) : Z :=
  match String.compare a b with
  | Lt => -1
  | Eq => 0
  | Gt => 1
  end.

Definition day_count (timeline : obj nat) (k : string) : nat :=
  default 0%nat (obj_get timeline k).

(** [reduce] without an initial value throws on an empty array. *)
Definition analyzeTimeline (threats : list threat) : result timeline_analysis :=
  let timeline :=
    fold_left
      (λ timeline t,
         match dateDetected t with
         | Some d =>
             if truthy_str (dateDetected t) then
               let date := substring0 10 d in
               obj_set timeline date (day_count timeline date + 1)%nat
             else timeline
         | None => timeline
         end)
      threats [] in
  let dates := sort by_code_units (obj_keys timeline) in
  let trend :=
    match head dates, last dates with
    | Some first, Some final =>
        if (1 <? List.length dates)%nat then
          if (day_count timeline first <? day_count timeline final)%nat
          then UP else DOWN
        else STABLE
    | _, _ => STABLE
    end in
  match obj_keys timeline with
  | [] => Throw TypeError
  | k :: keys =>
      Ok {| dateRange := (head dates, last dates);
            threatsPerDay := timeline;
            trend := trend;
            peakDay :=
              fold_left
                (λ a b,
                   if (day_count timeline b <? day_count timeline a)%nat
                   then a else b)
                keys k |}
  end.

(** [threatDensity] is the quotient itself; the source prints it with
    two decimals. *)
Record metrics := {
  threatDensity : Q;
  platformDispersion : dispersion;
  timelineAnalysis : timeline_analysis;
}.

Record report := {
  reportId : string;
  generatedAt : Z;
  timeframe : string;
  report_summary : summary;
  topThreats : list ranked_threat;
  report_patterns : patterns;
  riskAssessment : risk_assessment;
  recommendations : list checklist;
  report_metrics : metrics;
}.

(** The engine's state is its report cache, a [Map] from report
    identifiers to reports.  [clock_id] and [clock_at] are the two
    readings of the clock, by [Date.now()] and by [new Date()], in
    milliseconds.  The properties of the report are evaluated in the
    order written, so that an exception of [analyzeTimeline] comes after
    the others were computed, and before the cache is written. *)
Definition generateThreatReport (clock_id clock_at : Z) (threats : list threat)
    (timeframe : string) (reportCache : gmap string report)
  : result (report * gmap string report) :=
  let reportId := String.append "report_" (pretty clock_id) in
  let summary := summarize threats in
  let topThreats := identifyTopThreats threats 10 in
  let patterns := analyzeThreatPatterns threats in
  let riskAssessment := assessOverallRisk threats in
  let recommendations := generateActionItems in
  let threatDensity := (inject_Z (Z.of_nat (List.length threats)) / 7)%Q in
  let platformDispersion := calculateDispersion threats in
  try! timelineAnalysis := analyzeTimeline threats in
  let report :=
    {| reportId := reportId;
       generatedAt := clock_at;
       timeframe := timeframe;
       report_summary := summary;
       topThreats := topThreats;
       report_patterns := patterns;
       riskAssessment := riskAssessment;
       recommendations := recommendations;
       report_metrics :=
         {| threatDensity := threatDensity;
            platformDispersion := platformDispersion;
            timelineAnalysis := timelineAnalysis |} |} in
  Ok (report, <[reportId := report]> reportCache).

Definition getCachedReport (reportId : string)
    (reportCache : gmap string report) : option report :=
  reportCache !! reportId.

(** The loop over the entries of the cache, deleting as it goes; [now] is
    the reading of [Date.now()]. *)
Definition clearOldReports (now : Z) (reportCache : gmap string report)
  : gmap string report :=
  let thirtyDaysAgo := (now - 30 * 24 * 60 * 60 * 1000)%Z in
  fold_left
    (λ cache '(id, report),
       if (generatedAt report <? thirtyDaysAgo)%Z then delete id cache
       else cache)
    (map_to_list reportCache) reportCache.

(** *** Business impact *)

Definition estimateFinancialRisk (threats : list threat) : Z :=
  let risk := 0%Z in
  let customerDataThreats := List.filter (has_type "Customer") threats in
  let risk := (risk + Z.of_nat (List.length customerDataThreats) * 15)%Z in
  let financialThreats := List.filter (has_type "Financial") threats in
  let risk := (risk + Z.of_nat (List.length financialThreats) * 25)%Z in
  let viralThreats :=
    List.filter (λ t, negb (Qle_bool (engagement t) 5000)) threats in
  let risk := (risk + Z.of_nat (List.length viralThreats) * 10)%Z in
  Z.min risk 100.

Definition estimateReputationalRisk (threats : list threat) : Z :=
  let risk := 0%Z in
  let viralThreats :=
    List.filter (λ t, negb (Qle_bool (engagement t) 5000)) threats in
  let risk := (risk + Z.of_nat (List.length viralThreats) * 20)%Z in
  let mediaPlatforms :=
    List.filter
      (λ t, bool_decide (platform t ∈ ["Twitter"; "Reddit"; "LinkedIn"]))
      threats in
  let risk := (risk + Z.of_nat (List.length mediaPlatforms) * 10)%Z in
  let criticalThreats :=
    List.filter (λ t, String.eqb (riskLevel t) "critical") threats in
  let risk := (risk + Z.of_nat (List.length criticalThreats) * 15)%Z in
  Z.min risk 100.

Definition estimateOperationalRisk (threats : list threat) : Z :=
  let risk := 0%Z in
  let apiThreats := List.filter (has_type "API") threats in
  let risk := (risk + Z.of_nat (List.length apiThreats) * 25)%Z in
  let dbThreats := List.filter (has_type "Database") threats in
  let risk := (risk + Z.of_nat (List.length dbThreats) * 20)%Z in
  let codeThreats := List.filter (has_type "Source") threats in
  let risk := (risk + Z.of_nat (List.length codeThreats) * 20)%Z in
  Z.min risk 100.

Definition estimateLegalRisk (threats : list threat) : Z :=
  let risk := 0%Z in
  let customerThreats := List.filter (has_type "Customer") threats in
  let risk := (risk + Z.of_nat (List.length customerThreats) * 20)%Z in
  let employeeThreats := List.filter (has_type "Employee") threats in
  let risk := (risk + Z.of_nat (List.length employeeThreats) * 15)%Z in
  let ipThreats := List.filter (has_type "Source") threats in
  let risk := (risk + Z.of_nat (List.length ipThreats) * 25)%Z in
  Z.min risk 100.

Record impact := {
  financialRisk : Z;
  reputationalRisk : Z;
  operationalRisk : Z;
  legalRisk : Z;
  impact_summary : string;
}.

Definition generateImpactAnalysis (threats : list threat) : impact :=
  let financialRisk := estimateFinancialRisk threats in
  let reputationalRisk := estimateReputationalRisk threats in
  let operationalRisk := estimateOperationalRisk threats in
  let legalRisk := estimateLegalRisk threats in
  let totalRisk :=
    (inject_Z (financialRisk + reputationalRisk + operationalRisk + legalRisk)
     / 4)%Q in
  let summary :=
    if negb (Qle_bool totalRisk 75) then
      "CRITICAL: Immediate executive and board notification required"
    else if negb (Qle_bool totalRisk 50) then
      "HIGH: Significant risk requiring immediate action"
    else if negb (Qle_bool totalRisk 25) then
      "MEDIUM: Moderate risk requiring prompt attention"
    else "LOW: Manageable risk, monitor and document" in
  {| financialRisk := financialRisk;
     reputationalRisk := reputationalRisk;
     operationalRisk := operationalRisk;
     legalRisk := legalRisk;
     impact_summary := summary |}.

End Analytics.

(** ** SocialMediaMonitoringService

    The bookkeeping of keyword monitoring.  The state of the service is
    its [activeMonitoring] map; the clock readings are parameters, in
    milliseconds. *)

Module Monitoring.
Import JS.

Definition platforms : obj string :=
  [ ("TWITTER", "twitter"); ("LINKEDIN", "linkedin"); ("REDDIT", "reddit");
    ("FACEBOOK", "facebook"); ("INSTAGRAM", "instagram");
    ("GITHUB", "github"); ("DARK_WEB", "darkweb") ].

Inductive monitoring_status := ACTIVE | STOPPED.

(** A collected result; the service reads its platform only. *)
Record collected := { result_platform : string }.

Record monitoring := {
  keywords : list string;
  monitored_platforms : list string;
  status : monitoring_status;
  startTime : Z;
  endTime : option Z;
  results : list collected;
}.

Record started := {
  monitoringId : string;
  keywordsTracked : nat;
  platformsCovered : nat;
}.

(** [clock_start] is the reading of [new Date()], [clock_id] the later
    one of [Date.now()]. *)
Definition initializeKeywordMonitoring (clock_start clock_id : Z)
    (keywords : list string) (activeMonitoring : gmap string monitoring)
  : started * gmap string monitoring :=
  let monitoring :=
    {| keywords := keywords;
       monitored_platforms := obj_values platforms;
       status := ACTIVE;
       startTime := clock_start;
       endTime := None;
       results := [] |} in
  let monitoringId := String.append "monitor_" (pretty clock_id) in
  let activeMonitoring := <[monitoringId := monitoring]> activeMonitoring in
  ({| monitoringId := monitoringId;
      keywordsTracked := List.length keywords;
      platformsCovered := List.length (monitored_platforms monitoring) |},
   activeMonitoring).

Inductive stop_outcome :=
| Stopped (duration : Z) (resultsFound : nat)
| StopError (error : string).

Definition stopKeywordMonitoring (now : Z) (monitoringId : string)
    (activeMonitoring : gmap string monitoring)
  : stop_outcome * gmap string monitoring :=
  match activeMonitoring !! monitoringId with
  | Some monitoring =>
      let monitoring :=
        {| keywords := keywords monitoring;
           monitored_platforms := monitored_platforms monitoring;
           status := STOPPED;
           startTime := startTime monitoring;
           endTime := Some now;
           results := results monitoring |} in
      (Stopped (now - startTime monitoring) (List.length (results monitoring)),
       <[monitoringId := monitoring]> activeMonitoring)
  | None => (StopError "Monitoring ID not found", activeMonitoring)
  end.

Definition aggregateResultsByPlatform (results : list collected) : obj nat :=
  fold_left
    (λ aggregated result,
       obj_set aggregated (result_platform result)
         (default 0%nat (obj_get aggregated (result_platform result)) + 1)%nat)
    results [].

Record monitoring_report := {
  report_monitoringId : string;
  report_keywords : list string;
  report_status : monitoring_status;
  report_platforms : list string;
  report_startTime : Z;
  report_endTime : Z;
  totalResults : nat;
  resultsByPlatform : obj nat;
}.

Inductive report_outcome :=
| Report (r : monitoring_report)
| ReportError (error : string).

Definition getMonitoringReport (now : Z) (monitoringId : string)
    (activeMonitoring : gmap string monitoring) : report_outcome :=
  match activeMonitoring !! monitoringId with
  | Some monitoring =>
      Report
        {| report_monitoringId := monitoringId;
           report_keywords := keywords monitoring;
           report_status := status monitoring;
           report_platforms := monitored_platforms monitoring;
           report_startTime := startTime monitoring;
           report_endTime := default now (endTime monitoring);
           totalResults := List.length (results monitoring);
           resultsByPlatform :=
             aggregateResultsByPlatform (results monitoring) |}
  | None => ReportError "Monitoring ID not found"
  end.

End Monitoring.

(** ** The threat score in binary64

    The same [calculateThreatScore], computed with the binary64 numbers
    and operations JavaScript has, for an engagement that is an integer.
    It serves to check the exact rationals of [Analytics] against the
    rounding of the real arithmetic (see [binary64_agrees]). *)

Module Binary64.
Import JS Analytics.

#[local] Set Warnings "-inexact-float".

(** The rational a finite binary64 number stands for. *)
Definition to_Q (x : float) : option Q :=
  match Prim2SF x with
  | S754_zero _ => Some 0%Q
  | S754_finite s m e =>
      Some ((if s then -1 else 1) * inject_Z (Z.pos m) * Qpower 2 e)%Q
  | S754_infinity _ | S754_nan => None
  end.

(** [Math.round], exact on the number it is given. *)
Definition round (x : float) : option Z := round_Q <$> to_Q x.

Definition min (a b : float) : float := if (a <? b)%float then a else b.

Definition or_else (o : option float) (d : float) : float :=
  match o with
  | Some v => if (v =? 0)%float then d else v
  | None => d
  end.

Definition riskScores : obj float :=
  [ ("critical", 40); ("high", 30); ("medium", 20); ("low", 10) ]%float.

Definition platformReachFactors : obj float :=
  [ ("github", 1.5); ("twitter", 1.3); ("reddit", 1.2);
    ("linkedin", 1.1); ("darkweb", 2.0); ("facebook", 1.0);
    ("instagram", 0.8) ]%float.

Definition calculateThreatScore (t : threat) (engagement : float)
  : option Z :=
  let score := 0%float in
  let score :=
    (score + or_else (obj_get riskScores (riskLevel t)) 0)%float in
  let engagementScore := min (engagement / 1000 * 20)%float 20 in
  let score := (score + engagementScore)%float in
  let platformFactor :=
    or_else (obj_get platformReachFactors (toLowerCase (platform t))) 1 in
  let score := (score * platformFactor)%float in
  let score :=
    if is_sensitive (dataType t) then (score + 15)%float else score in
  (λ r, Z.min r 100) <$> round score.

Definition of_int (e : Z) : float := PrimFloat.of_uint63 (Uint63.of_Z e).

(** Both computations on the threat of the given fields and integer
    engagement. *)
Definition agree (level platform : string) (dataType : option string)
    (e : Z) : bool :=
  let t := {| platform := platform; username := "";
              engagement := inject_Z e; riskLevel := level;
              dataType := dataType; dateDetected := None |} in
  bool_decide
    (calculateThreatScore t (of_int e)
     = Some (Analytics.calculateThreatScore t)).

(** Every row of the two tables, and a level and a platform outside
    them, with and without a sensitive data type. *)
Definition all_agree (engagements : list Z) : bool :=
  forallb
    (λ level,
       forallb
         (λ platform,
            forallb
              (λ dataType,
                 forallb (agree level platform dataType) engagements)
              [None; Some "Customer Records"])
         [ "github"; "twitter"; "reddit"; "linkedin"; "darkweb";
           "facebook"; "instagram"; "forum" ])
    [ "critical"; "high"; "medium"; "low"; "unrated" ].

End Binary64.

(** ** The design document's formulas

    What the document says in words, written down independently of the
    code, to be compared with it. *)

Module Spec.
Import JS.

(** *** Content Analyzer: the accumulated risk score and its buckets *)

Definition hits (s : Detection.level) (patterns : list Detection.pattern)
  : nat :=
  List.length
    (List.filter (λ p, bool_decide (Detection.severity p = s)) patterns).

Definition total_keyword_occurrences
    (keywords : list Detection.keyword_match) : nat :=
  foldr Nat.add 0%nat (map Detection.kw_count keywords).

Definition accumulated (keywords : list Detection.keyword_match)
    (patterns : list Detection.pattern) (categories : list string) : nat :=
  (40 * hits Detection.critical patterns
   + 25 * hits Detection.high patterns
   + 15 * hits Detection.medium patterns)
  + Nat.min (total_keyword_occurrences keywords * 5) 30
  + List.length categories * 8.

Definition bucket (S : nat) : Detection.level :=
  if (70 <=? S)%nat then Detection.critical
  else if (50 <=? S)%nat && (S <? 70)%nat then Detection.high
  else if (30 <=? S)%nat && (S <? 50)%nat then Detection.medium
  else Detection.low.

(** *** Structural detectors: the pattern of each kind *)

Definition detector (ty : Detection.pattern_type) : Regex.regex :=
  match ty with
  | Detection.API_KEY => Detection.api_key_re
  | Detection.IP_ADDRESS => Detection.ip_re
  | Detection.EMAIL_ADDRESS => Detection.email_re
  | Detection.CREDIT_CARD => Detection.credit_card_re
  | Detection.DATABASE_CONNECTION => Detection.database_re
  end.

(** All the matches of a detector in a text. *)
Definition all_matches (ty : Detection.pattern_type) (content : string)
  : list string :=
  Regex.match_all (detector ty) content.

(** *** Risk Scoring Engine: the threat score *)


(** The reach multiplier of a platform, by its name whatever the case
    of its letters; 1 for a platform the table does not know. *)
Definition platformFactor (platform : string) : Q :=
  let name := toLowerCase platform in
  if String.eqb name "github" then 15 # 10
  else if String.eqb name "twitter" then 13 # 10
  else if String.eqb name "reddit" then 12 # 10
  else if String.eqb name "linkedin" then 11 # 10
  else if String.eqb name "darkweb" then 2
  else if String.eqb name "facebook" then 1
  else if String.eqb name "instagram" then 8 # 10
  else 1.

(** The declared data type meets the sensitive list when it holds one
    of the list's names. *)
Definition sensitive (dataType : option string) : bool :=
  match dataType with
  | Some d =>
      existsb (λ name, includes d name)
        [ "API Keys"; "Customer Records"; "Financial Data";
          "Database Schema" ]
  | None => false
  end.

Definition bonus (dataType : option string) : Q :=
  if sensitive dataType then 15 else 0.

Definition score (b engagement : Q) (platform : string)
    (dataType : option string) : Z :=
  Z.min
    (round_Q
       ((b + Qmin (engagement / 1000 * 20) 20) * platformFactor platform
        + bonus dataType))
    100.

(** *** Risk Scoring Engine: the overall verdict *)

Definition maximum (l : list Z) : Z :=
  match l with
  | [] => 0
  | x :: l' => foldr Z.max x l'
  end.

Definition average (l : list Z) : Q :=
  inject_Z (foldr Z.add 0%Z l) / inject_Z (Z.of_nat (List.length l)).

Definition critical_threats (threats : list Analytics.threat) : nat :=
  List.length
    (List.filter
       (λ t, bool_decide (Analytics.riskLevel t = "critical")) threats).

Definition verdict (maxScore : Z) (avgScore : Q) (criticalCount : nat)
  : Analytics.overall :=
  if (80 <=? maxScore)%Z || (5 <=? criticalCount)%nat
  then Analytics.CRITICAL
  else if Qle_bool 60 avgScore || (2 <=? criticalCount)%nat
  then Analytics.HIGH
  else if Qle_bool 40 avgScore then Analytics.MEDIUM
  else Analytics.LOW.

(** *** Report cache *)

(** The retention window, thirty days in milliseconds. *)
Definition retention : Z := 2592000000.


End Spec.

(** ** Facts about the stable sort *)

Section SortFacts.
Context {A : Type} (cmp : A → A → Z).

Abbreviation before := (JS.before cmp).

Lemma sort_insert_perm (x : A) (l : list A) :
  Permutation (JS.sort_insert cmp x l) (x :: l).
Proof.
  induction l as [|y l IH]; simpl; [reflexivity|].
  destruct (0 <? cmp x y)%Z; [|reflexivity].
  rewrite IH. apply perm_swap.
Qed.

Lemma sort_perm (l : list A) : Permutation (JS.sort cmp l) l.
Proof.
  induction l as [|x l IH]; simpl; [reflexivity|].
  rewrite sort_insert_perm. by constructor.
Qed.

Lemma sort_length (l : list A) : List.length (JS.sort cmp l) = List.length l.
Proof. apply Permutation_length, sort_perm. Qed.


(** A comparator that puts [x] after [y] lets [y] stand before [x]. *)
Hypothesis cmp_flip : ∀ x y, (0 < cmp x y)%Z → (cmp y x <= 0)%Z.

Lemma sort_insert_sorted (x : A) (l : list A) :
  Sorted before l → Sorted before (JS.sort_insert cmp x l).
Proof.
  induction 1 as [|y l Hl IH Hhd]; simpl.
  - repeat constructor.
  - destruct (Z.ltb_spec 0 (cmp x y)) as [Hgt|Hle].
    + constructor; [exact IH|].
      destruct Hhd as [|z l' Hyz]; simpl.
      * constructor. by apply cmp_flip.
      * destruct (0 <? cmp x z)%Z; constructor;
          [exact Hyz | by apply cmp_flip].
    + constructor; [by constructor | by constructor].
Qed.

Lemma sort_sorted (l : list A) : Sorted before (JS.sort cmp l).
Proof.
  induction l as [|x l IH]; simpl; [constructor|].
  by apply sort_insert_sorted.
Qed.
End SortFacts.

(** ** Content Analyzer *)

Section ContentAnalyzer.
Import Detection.

Lemma pattern_scores_sum (patterns : list pattern) (acc : nat) :
  fold_left
    (λ riskScore p,
       match severity p with
       | critical => riskScore + 40
       | high => riskScore + 25
       | medium => riskScore + 15
       | low => riskScore
       end%nat) patterns acc
  = (acc + (40 * Spec.hits critical patterns
            + 25 * Spec.hits high patterns
            + 15 * Spec.hits medium patterns))%nat.
Proof.
  revert acc. induction patterns as [|p ps IH]; intros acc; simpl.
  - unfold Spec.hits. simpl. lia.
  - rewrite IH. unfold Spec.hits. simpl.
    destruct (severity p); simpl; lia.
Qed.

Lemma keyword_counts_sum (keywords : list keyword_match) (acc : nat) :
  fold_left (λ sum kw, sum + kw_count kw)%nat keywords acc
  = (acc + Spec.total_keyword_occurrences keywords)%nat.
Proof.
  revert acc. induction keywords as [|k ks IH]; intros acc; simpl.
  - unfold Spec.total_keyword_occurrences. simpl. lia.
  - rewrite IH. unfold Spec.total_keyword_occurrences. simpl. lia.
Qed.

Lemma riskScore_accumulated keywords patterns dataTypes :
  riskScore keywords patterns dataTypes
  = Spec.accumulated keywords patterns dataTypes.
Proof.
  unfold riskScore, Spec.accumulated.
  rewrite pattern_scores_sum, keyword_counts_sum. lia.
Qed.

Lemma calculateRiskLevel_bucket keywords patterns dataTypes :
  calculateRiskLevel keywords patterns dataTypes
  = Spec.bucket (Spec.accumulated keywords patterns dataTypes).
Proof.
  unfold calculateRiskLevel, Spec.bucket.
  rewrite riskScore_accumulated.
  set (S := Spec.accumulated keywords patterns dataTypes).
  destruct (Nat.leb_spec 70 S) as [|H70]; [reflexivity|].
  apply Nat.ltb_lt in H70 as ->.
  destruct (Nat.leb_spec 50 S) as [|H50]; [reflexivity|].
  apply Nat.ltb_lt in H50 as ->.
  destruct (30 <=? S)%nat; reflexivity.
Qed.

(** C3.  For every input text, the risk level the Content Analyzer
    reports is the bucket of the accumulated score: 40 for each critical
    pattern entry, 25 for each high one, 15 for each medium one, plus
    the keyword occurrences times 5 capped at 30, plus 8 for each
    inferred category; critical from 70, high from 50 to 69, medium
    from 30 to 49, low below. *)
Theorem risk_level_is_bucket_of_accumulated_score
    (content platform username timestamp : string) :
  let a := analyzeSocialMediaContent content platform username timestamp in
  riskLevel a
  = Spec.bucket
      (Spec.accumulated (matchedKeywords a) (suspiciousElements a)
         (dataExposed a))
  ∧ matchedKeywords a = detectKeywords content
  ∧ suspiciousElements a = detectSuspiciousPatterns content
  ∧ dataExposed a = classifyDataExposure content (detectKeywords content).
Proof.
  simpl. split; [apply calculateRiskLevel_bucket | done].
Qed.

(** C7.  The scenario text yields the keywords "database", "schema" and
    "API key", one structural match, of the API-key kind, the
    categories "Database Schema" and "API Keys/Secrets", the
    accumulated score 40 + 15 + 16 = 71 and the level critical. *)
Theorem scenario_schema_and_key (platform username timestamp : string) :
  let a :=
    analyzeSocialMediaContent
      "Our database schema and API key ABCDEFGHIJKLMNOPQRSTUVWXYZ123456 were leaked"
      platform username timestamp in
  map (λ k, (keyword k, kw_count k)) (matchedKeywords a)
    = [("API key", 1); ("database", 1); ("schema", 1)]%nat
  ∧ suspiciousElements a
    = [ {| type := API_KEY; severity := critical;
           matches := ["ABCDEFGHIJKLMNOPQRSTUVWXYZ123456"];
           count := 1 |} ]
  ∧ dataExposed a = ["API Keys/Secrets"; "Database Schema"]
  ∧ Spec.hits critical (suspiciousElements a) = 1%nat
  ∧ Nat.min (Spec.total_keyword_occurrences (matchedKeywords a) * 5) 30
    = 15%nat
  ∧ (List.length (dataExposed a) * 8 = 16)%nat
  ∧ riskScore (matchedKeywords a) (suspiciousElements a) (dataExposed a)
    = 71%nat
  ∧ riskLevel a = critical.
Proof.
  cbv zeta. unfold analyzeSocialMediaContent. cbn [matchedKeywords
    suspiciousElements dataExposed riskLevel].
  repeat split; vm_compute; reflexivity.
Qed.
End ContentAnalyzer.

(** ** Pattern pass *)

Section PatternPass.
Import Detection.

(** What each kind of entry reports, given all the matches of its
    detector in the text. *)
Definition reports (content : string) (p : pattern) : Prop :=
  let found := Spec.all_matches (type p) content in
  match type p with
  | API_KEY | EMAIL_ADDRESS =>
      matches p = take 5 found
      ∧ (List.length (matches p) <= 5)%nat
      ∧ count p = List.length found
  | IP_ADDRESS | CREDIT_CARD => count p = List.length found
  | DATABASE_CONNECTION =>
      count p = 1%nat
      ∧ matches p = ["Potential database credentials found"]
  end.

Ltac split_entries H :=
  cbn [app] in H;
  repeat (apply elem_of_cons in H as [H | H]);
  [ .. | apply elem_of_nil in H; destruct H ].

(** C4, as the code has it.  Of the entries the pattern pass reports,
    those of the API-key and email detectors list the first five
    matches at most and count all the matches in the text; those of the
    IP-address and payment-card detectors count all the matches in the
    text; the entry of the datastore detector has the count 1 and one
    fixed line of text. *)
Theorem pattern_entries_report (content : string) (p : pattern) :
  p ∈ detectSuspiciousPatterns content → reports content p.
Proof.
  unfold detectSuspiciousPatterns, reports, Spec.all_matches. cbv zeta.
  remember (Regex.match_all api_key_re content) as ak eqn:Eak.
  remember (Regex.match_all ip_re content) as ip eqn:Eip.
  remember (Regex.match_all email_re content) as em eqn:Eem.
  remember (Regex.match_all credit_card_re content) as cc eqn:Ecc.
  generalize (Regex.test database_re content) as db.
  intros db H.
  destruct (0 <? List.length ak)%nat, (0 <? List.length ip)%nat,
           (0 <? List.length em)%nat, (0 <? List.length cc)%nat, db.
  all: split_entries H.
  all: subst p; cbn [type matches count Spec.detector].
  all: rewrite <- ?Eak, <- ?Eip, <- ?Eem, <- ?Ecc.
  all: repeat split; first [ rewrite length_take; lia | reflexivity ].
Qed.

Lemma pattern_entries_report_witness :
  let content := "keys at 10.0.0.1 and 10.0.0.2" in
  let p := {| type := IP_ADDRESS; severity := high;
              matches := ["10.0.0.1"; "10.0.0.2"]; count := 2 |} in
  p ∈ detectSuspiciousPatterns content ∧ reports content p.
Proof.
  cbv zeta.
  assert (H : {| type := IP_ADDRESS; severity := high;
                 matches := ["10.0.0.1"; "10.0.0.2"]; count := 2 |}
              ∈ detectSuspiciousPatterns "keys at 10.0.0.1 and 10.0.0.2").
  { vm_compute. apply list_elem_of_here. }
  split; [exact H | exact (pattern_entries_report _ _ H)].
Defined.

(** C4, as stated, fails: six addresses give a list of six matches,
    beyond the cap of five, and two engine names give the count 1, not
    the two matches the text holds. *)
Lemma pattern_list_uncapped_and_count_fixed :
  (∃ p,
     p ∈ detectSuspiciousPatterns
           "1.1.1.1 2.2.2.2 3.3.3.3 4.4.4.4 5.5.5.5 6.6.6.6"
     ∧ type p = IP_ADDRESS
     ∧ List.length (matches p) = 6%nat)
  ∧ (∃ p,
       p ∈ detectSuspiciousPatterns "mysql dump moved to mongodb"
       ∧ type p = DATABASE_CONNECTION
       ∧ count p = 1%nat
       ∧ Spec.all_matches DATABASE_CONNECTION "mysql dump moved to mongodb"
         = ["mysql"; "mongodb"]).
Proof.
  split.
  - eexists. split; [vm_compute; apply list_elem_of_here|].
    split; reflexivity.
  - eexists. split; [vm_compute; apply list_elem_of_here|].
    repeat split.
Qed.
End PatternPass.

(** ** The incident report and its argument *)

Section IncidentReport.
Import Detection.




Lemma map_imap_const {A B C} (g : B → C) (h : A → C) (f : nat → A → B)
    (l : list A) :
  (∀ i x, g (f i x) = h x) → map g (imap f l) = map h l.
Proof.
  revert f. induction l as [|x l IH]; intros f Hf; simpl; [reflexivity|].
  rewrite Hf. f_equal. apply IH. intros i y. apply Hf.
Qed.



(** A batch of two analyses given in ascending order comes back
    reversed. *)
Example generateThreatReport_reorders :
  let a := analyzeSocialMediaContent "nothing here" "reddit" "ann" "" in
  let b :=
    analyzeSocialMediaContent
      "password and secret token: mysql at 10.0.0.1" "github" "bob" "" in
  riskLevel a = low ∧ riskLevel b = critical
  ∧ (generateThreatReport 0 [a; b] "24h").2 = [b; a].
Proof. vm_compute. done. Qed.
End IncidentReport.

(** ** Risk Scoring Engine *)

Section ThreatScore.
Import JS Analytics.

Local Open Scope Q_scope.

Lemma Qmin_le_r (a b : Q) : Qmin a b <= b.
Proof.
  unfold Qmin. destruct (Qle_bool a b) eqn:E.
  - by apply Qle_bool_iff.
  - apply Qle_refl.
Qed.


Lemma Qmin_nonneg (a b : Q) : 0 <= a → 0 <= b → 0 <= Qmin a b.
Proof. intros. unfold Qmin. by destruct (Qle_bool a b). Qed.



Lemma round_Q_comp (x y : Q) : x == y → round_Q x = round_Q y.
Proof. intros H. unfold round_Q. by rewrite H. Qed.

Lemma round_Q_nonneg (x : Q) : 0 <= x → (0 <= round_Q x)%Z.
Proof.
  intros H. change 0%Z with (Qfloor 0). apply Qfloor_resp_le. lra.
Qed.

(** The three ingredients as the code looks them up. *)
Definition base_of (t : threat) : Q :=
  or_else (obj_get riskScores (riskLevel t)) 0.
Definition factor_of (t : threat) : Q :=
  or_else (obj_get platformReachFactors (toLowerCase (platform t))) 1.
Definition raw_score (t : threat) : Q :=
  (base_of t + Qmin (engagement t / 1000 * 20) 20) * factor_of t
  + (if is_sensitive (dataType t) then 15 else 0).

Lemma calculateThreatScore_raw (t : threat) :
  calculateThreatScore t = Z.min (round_Q (raw_score t)) 100.
Proof.
  unfold calculateThreatScore, raw_score, base_of, factor_of.
  f_equal. apply round_Q_comp.
  destruct (is_sensitive (dataType t)); ring.
Qed.

Ltac by_key :=
  repeat match goal with
  | |- context [String.eqb ?a ?b] => destruct (String.eqb a b)
  end.

Lemma base_of_nonneg (t : threat) : 0 <= base_of t.
Proof.
  unfold base_of, riskScores. cbn [obj_get]. by_key; vm_compute; congruence.
Qed.

Lemma factor_of_pos (t : threat) : 0 < factor_of t.
Proof.
  unfold factor_of, platformReachFactors. cbn [obj_get].
  by_key; vm_compute; congruence.
Qed.




(** The exact score is the binary64 score for every integer engagement
    up to the cap, on every row of the tables; beyond the cap the
    quotient by 1000 is at least 1 and its product by 20 at least 20 in
    binary64 too, so that the capped term is 20 as at the cap. *)
Lemma binary64_agrees :
  Binary64.all_agree (seqZ 0 1001) = true
  ∧ Binary64.all_agree [1001; 1500; 4999; 5001; 1000000; 9007199254740991]%Z
    = true.
Proof. split; vm_cast_no_check (eq_refl true). Qed.


Lemma engagement_term (e : Q) : e / 1000 * 20 == e * (1 # 50).
Proof. field. Qed.





Lemma raw_score_nonneg (t : threat) : 0 <= engagement t → 0 <= raw_score t.
Proof.
  intros H. unfold raw_score.
  assert (0 <= base_of t) by apply base_of_nonneg.
  assert (0 < factor_of t) by apply factor_of_pos.
  assert (0 <= Qmin (engagement t / 1000 * 20) 20).
  { apply Qmin_nonneg; [|lra]. rewrite engagement_term. lra. }
  assert (0 <= (base_of t + Qmin (engagement t / 1000 * 20) 20)
               * factor_of t)
    by (apply Qmult_le_0_compat; lra).
  destruct (is_sensitive (dataType t)); lra.
Qed.



End ThreatScore.

(** ** Overall risk *)

Section OverallRisk.
Import JS Analytics.

Lemma foldr_max_start (l : list Z) (x y : Z) :
  foldr Z.max (Z.max x y) l = Z.max y (foldr Z.max x l).
Proof. induction l as [|z l IH]; simpl; [|rewrite IH]; lia. Qed.

Lemma fold_max_foldr (l : list Z) (x : Z) :
  fold_left Z.max l x = foldr Z.max x l.
Proof.
  revert x. induction l as [|y l IH]; intros x; simpl; [reflexivity|].
  by rewrite IH, foldr_max_start.
Qed.

Lemma fold_add_foldr (l : list Z) (acc : Z) :
  fold_left Z.add l acc = (acc + foldr Z.add 0 l)%Z.
Proof.
  revert acc. induction l as [|y l IH]; intros acc; simpl; [lia|].
  rewrite IH. lia.
Qed.

Lemma ge_of_Z (m c : Z) : ge (of_Z m) c = (c <=? m)%Z.
Proof.
  unfold ge, of_Z, Qle_bool. simpl. by rewrite !Z.mul_1_r.
Qed.

Lemma critical_count_spec (threats : list threat) :
  critical_count threats = Spec.critical_threats threats.
Proof.
  unfold critical_count, Spec.critical_threats. f_equal.
  apply filter_ext. intros t.
  destruct (String.eqb_spec (riskLevel t) "critical") as [E|E];
    [by rewrite bool_decide_eq_true_2 | by rewrite bool_decide_eq_false_2].
Qed.

(** C5.  For a batch that is not empty, the verdict is CRITICAL if the
    greatest score is at least 80 or at least five threats are
    critical; else HIGH if the average score is at least 60 or at least
    two threats are critical; else MEDIUM if the average is at least
    40; else LOW. *)
Theorem assessOverallRisk_verdict (threats : list threat) :
  threats ≠ [] →
  let scores := map calculateThreatScore threats in
  level (assessOverallRisk threats)
  = Spec.verdict (Spec.maximum scores) (Spec.average scores)
      (Spec.critical_threats threats).
Proof.
  intros Hne. cbv zeta. unfold assessOverallRisk. cbn [level].
  rewrite critical_count_spec.
  destruct threats as [|t threats]; [done|].
  set (scores := map calculateThreatScore (t :: threats)).
  assert (Hlen : Z.of_nat (List.length scores) ≠ 0%Z)
    by (subst scores; simpl; lia).
  unfold div. rewrite (proj2 (Z.eqb_neq _ _) Hlen).
  rewrite fold_add_foldr, Z.add_0_l.
  assert (Hmax : max_of scores = of_Z (Spec.maximum scores)).
  { subst scores. simpl. by rewrite fold_max_foldr. }
  rewrite Hmax, ge_of_Z. reflexivity.
Qed.

Lemma assessOverallRisk_verdict_witness :
  let t := {| platform := "darkweb"; username := "eve";
              engagement := 1000; riskLevel := "critical";
              dataType := Some "Customer Records";
              dateDetected := None |} in
  let u := {| platform := "instagram"; username := "ann";
              engagement := 0; riskLevel := "low";
              dataType := None; dateDetected := None |} in
  [t; u] ≠ []
  ∧ map calculateThreatScore [t; u] = [100; 8]%Z
  ∧ level (assessOverallRisk [t; u]) = CRITICAL
  ∧ level (assessOverallRisk [u]) = LOW.
Proof.
  intros t u.
  assert (H2 : [t; u] ≠ []) by discriminate.
  assert (H1 : [u] ≠ []) by discriminate.
  split; [exact H2|]. split; [reflexivity|].
  split.
  - exact (eq_trans (assessOverallRisk_verdict [t; u] H2) eq_refl).
  - exact (eq_trans (assessOverallRisk_verdict [u] H1) eq_refl).
Defined.
End OverallRisk.

(** ** Correlation Analyzer *)

Section Correlations.
Import JS Analytics.


Lemma obj_entries_single {V} (k : string) (v : V) :
  obj_entries [(k, v)] = [(k, v)].
Proof.
  unfold obj_entries, indexed. cbn [omap list_omap List.filter fst].
  destruct (array_index k); reflexivity.
Qed.

(** Two threats with the data type "Financial Data", on reddit and on
    github, by different users: one MULTI_PLATFORM_EXPOSURE entry naming
    both platforms, and nothing else. *)
Example identifyCorrelations_two_platforms :
  identifyCorrelations
    [ {| platform := "reddit"; username := "ann"; engagement := 10;
         riskLevel := "medium"; dataType := Some "Financial Data";
         dateDetected := None |};
      {| platform := "github"; username := "bob"; engagement := 6000;
         riskLevel := "critical"; dataType := Some "Financial Data";
         dateDetected := None |} ]
  = [ MULTI_PLATFORM_EXPOSURE "Financial Data" ["reddit"; "github"] 2
        "Financial Data exposed across 2 platforms" ].
Proof. vm_compute. reflexivity. Qed.
End Correlations.

(** ** Report Generator *)

Section ReportGenerator.
Import JS Analytics.

(** C2, at the empty batch.  The design asks for a report with
    [totalThreats = 0] and no [NaN]; the code divides by the length,
    taking the average for [NaN] and the greatest score for
    [-Infinity], and then throws in [analyzeTimeline], whose [reduce]
    has no element to start from: no report is returned nor cached. *)
Theorem generateThreatReport_empty_batch (clock_id clock_at : Z)
    (timeframe : string) (reportCache : gmap string report) :
  generateThreatReport clock_id clock_at [] timeframe reportCache
    = Throw TypeError
  ∧ analyzeTimeline [] = Throw TypeError
  ∧ totalThreats (summarize []) = 0%nat
  ∧ averageThreatScore (summarize []) = NaN
  ∧ score (assessOverallRisk []) = NaN
  ∧ maxScore (assessOverallRisk []) = NegInf
  ∧ level (assessOverallRisk []) = LOW.
Proof. repeat split. Qed.

(** *** Eviction *)

Definition old (now : Z) (r : report) : bool :=
  (generatedAt r <? now - Spec.retention)%Z.

Definition evict (now : Z) (cache : gmap string report)
    (entry : string * report) : gmap string report :=
  if old now entry.2 then delete entry.1 cache else cache.

Lemma clearOldReports_fold (now : Z) (reportCache : gmap string report) :
  clearOldReports now reportCache
  = fold_left (evict now) (map_to_list reportCache) reportCache.
Proof.
  unfold clearOldReports. cbv zeta.
  generalize reportCache at 2 4 as acc.
  induction (map_to_list reportCache) as [|[id r] l IH]; intros acc;
    [reflexivity|].
  simpl. apply IH.
Qed.

Lemma evict_absent now (l : list (string * report)) acc (id : string) :
  acc !! id = None → fold_left (evict now) l acc !! id = None.
Proof.
  revert acc. induction l as [|[k r] l IH]; intros acc H; simpl; [done|].
  apply IH. unfold evict. cbn [fst snd].
  destruct (old now r); [|done].
  destruct (decide (k = id)) as [->|Hne];
    [apply lookup_delete_eq | by rewrite lookup_delete_ne].
Qed.

Lemma evict_old now (l : list (string * report)) acc (id : string) r :
  (id, r) ∈ l → old now r = true →
  fold_left (evict now) l acc !! id = None.
Proof.
  revert acc. induction l as [|[k r'] l IH]; intros acc Hin Hold; simpl.
  - by apply elem_of_nil in Hin.
  - apply elem_of_cons in Hin as [[= <- <-]|Hin]; [|by apply IH].
    apply evict_absent. unfold evict. cbn [fst snd]. rewrite Hold.
    apply lookup_delete_eq.
Qed.

Lemma evict_young now (l : list (string * report)) acc (id : string) :
  (∀ r, (id, r) ∈ l → old now r = false) →
  fold_left (evict now) l acc !! id = acc !! id.
Proof.
  revert acc. induction l as [|[k r'] l IH]; intros acc H; simpl; [done|].
  rewrite IH by (intros r Hr; apply H; by right).
  unfold evict. cbn [fst snd].
  destruct (old now r') eqn:E; [|done].
  destruct (decide (k = id)) as [->|Hne]; [|by rewrite lookup_delete_ne].
  rewrite (H r') in E by left. discriminate.
Qed.

Lemma clearOldReports_lookup now (reportCache : gmap string report) id :
  clearOldReports now reportCache !! id
  = match reportCache !! id with
    | Some r => if old now r then None else Some r
    | None => None
    end.
Proof.
  rewrite clearOldReports_fold.
  destruct (reportCache !! id) as [r|] eqn:E.
  - destruct (old now r) eqn:Hold.
    + apply (evict_old now _ _ id r); [|done].
      by apply elem_of_map_to_list.
    + rewrite evict_young; [done|].
      intros r' Hr'. apply elem_of_map_to_list in Hr'. congruence.
  - rewrite evict_young; [done|].
    intros r' Hr'. apply elem_of_map_to_list in Hr'. congruence.
Qed.

(** C9.  [clearOldReports] removes from the cache the reports generated
    more than thirty days before the current time, those only, and
    leaves every other report present and as it was.  A report
    generated at the time of the sweep stays, also when
    [generateThreatReport] has just cached it; a report aged beyond
    thirty days goes. *)
Theorem clearOldReports_evicts_old_only (now : Z)
    (reportCache : gmap string report) :
  (∀ id r,
     clearOldReports now reportCache !! id = Some r
     ↔ reportCache !! id = Some r
       ∧ (now - Spec.retention <= generatedAt r)%Z)
  ∧ (∀ id,
       clearOldReports now reportCache !! id = None
       ↔ ∀ r, reportCache !! id = Some r
              → (generatedAt r < now - Spec.retention)%Z)
  ∧ (∀ id r,
       reportCache !! id = Some r → generatedAt r = now →
       clearOldReports now reportCache !! id = Some r)
  ∧ (∀ clock_id threats timeframe r cache,
       generateThreatReport clock_id now threats timeframe reportCache
         = Ok (r, cache) →
       clearOldReports now cache !! reportId r = Some r).
Proof.
  assert (Hold : ∀ r, old now r = true
                      ↔ (generatedAt r < now - Spec.retention)%Z)
    by (intros r; unfold old; apply Z.ltb_lt).
  repeat split.
  - rewrite clearOldReports_lookup in H.
    destruct (reportCache !! id) as [r'|]; [|done].
    destruct (old now r'); congruence.
  - rewrite clearOldReports_lookup in H.
    destruct (reportCache !! id) as [r'|]; [|done].
    destruct (old now r') eqn:E; [done|]. injection H as ->.
    destruct (Z.lt_ge_cases (generatedAt r) (now - Spec.retention))
      as [Hlt|Hge]; [|done].
    apply Hold in Hlt. congruence.
  - intros [H Hage]. rewrite clearOldReports_lookup, H.
    destruct (old now r) eqn:E; [|done]. apply Hold in E. lia.
  - intros H r Hr. rewrite clearOldReports_lookup, Hr in H.
    destruct (old now r) eqn:E; [by apply Hold | done].
  - intros H. rewrite clearOldReports_lookup.
    destruct (reportCache !! id) as [r|]; [|done].
    by rewrite (proj2 (Hold r) (H r eq_refl)).
  - intros id r H Hnow. rewrite clearOldReports_lookup, H.
    destruct (old now r) eqn:E; [|done].
    apply Hold in E. unfold Spec.retention in E. lia.
  - intros clock_id threats timeframe r cache H.
    unfold generateThreatReport in H. cbv zeta in H.
    destruct (analyzeTimeline threats) as [tl|e]; [|discriminate H].
    cbn [bind] in H. injection H as <- <-.
    rewrite clearOldReports_lookup. cbn [reportId].
    rewrite lookup_insert_eq. unfold old, Spec.retention. cbn [generatedAt].
    destruct (Z.ltb_spec now (now - 2592000000)); [lia | done].
Qed.

Definition sample_threat : threat :=
  {| platform := "reddit"; username := "ann"; engagement := 10;
     riskLevel := "medium"; dataType := Some "Financial Data";
     dateDetected := Some "2024-05-01T10:00:00Z" |}.

(** A run: a report cached forty days ago, one cached now; the sweep
    drops the first and keeps the second. *)
Example clearOldReports_run :
  let day := 86400000%Z in
  let now := (19000 * day)%Z in
  match generateThreatReport (now - 40 * day) (now - 40 * day)
          [sample_threat] "7d" ∅ with
  | Ok (r1, cache1) =>
      match generateThreatReport now now [sample_threat] "7d" cache1 with
      | Ok (r2, cache2) =>
          reportId r1 = "report_1638144000000"
          ∧ reportId r2 = "report_1641600000000"
          ∧ cache2 !! reportId r1 = Some r1
          ∧ clearOldReports now cache2 !! reportId r1 = None
          ∧ clearOldReports now cache2 !! reportId r2 = Some r2
      | Throw _ => False
      end
  | Throw _ => False
  end.
Proof.
  cbv zeta.
  destruct (generateThreatReport _ _ _ _ ∅) as [[r1 cache1]|] eqn:E1;
    [|discriminate E1].
  destruct (generateThreatReport _ _ _ _ cache1) as [[r2 cache2]|] eqn:E2;
    [|discriminate E2].
  unfold generateThreatReport in E1, E2. cbv zeta in E1, E2.
  cbn [analyzeTimeline bind] in E1, E2.
  injection E1 as <- <-. injection E2 as <- <-.
  cbn [reportId]. rewrite !clearOldReports_lookup.
  assert (Hne : String.append "report_" (pretty 1638144000000%Z)
                ≠ String.append "report_" (pretty 1641600000000%Z))
    by (vm_compute; discriminate).
  split; [by vm_compute|]. split; [by vm_compute|].
  change (19000 * 86400000 - 40 * 86400000)%Z with 1638144000000%Z.
  change (19000 * 86400000)%Z with 1641600000000%Z.
  rewrite lookup_insert_ne by (intros H; by apply Hne).
  rewrite !lookup_insert_eq. repeat split.
Qed.
End ReportGenerator.

(** ** Sets *)

Section Sets.
Import JS.
Context {A : Type} `{EqDecision A}.

Lemma set_add_elem (acc : list A) (x y : A) :
  y ∈ set_add acc x ↔ y ∈ acc ∨ y = x.
Proof.
  unfold set_add. case_bool_decide as H.
  - split; [by left|]. intros [?| ->]; done.
  - rewrite elem_of_app, list_elem_of_singleton. done.
Qed.

Lemma set_add_NoDup (acc : list A) (x : A) :
  NoDup acc → NoDup (set_add acc x).
Proof.
  intros Hacc. unfold set_add. case_bool_decide as H; [done|].
  apply NoDup_app. split_and!; [done| |apply NoDup_singleton].
  intros y Hy ->%list_elem_of_singleton. done.
Qed.

Lemma fold_set_add_elem (l acc : list A) (y : A) :
  y ∈ fold_left set_add l acc ↔ y ∈ acc ∨ y ∈ l.
Proof.
  revert acc. induction l as [|x l IH]; intros acc; simpl.
  - rewrite elem_of_nil. tauto.
  - rewrite IH, set_add_elem, elem_of_cons. tauto.
Qed.

Lemma fold_set_add_NoDup (l acc : list A) :
  NoDup acc → NoDup (fold_left set_add l acc).
Proof.
  revert acc. induction l as [|x l IH]; intros acc Hacc; simpl; [done|].
  apply IH, set_add_NoDup, Hacc.
Qed.

Lemma distinct_elem (l : list A) (y : A) : y ∈ distinct l ↔ y ∈ l.
Proof.
  unfold distinct. rewrite fold_set_add_elem, elem_of_nil. tauto.
Qed.

Lemma distinct_NoDup (l : list A) : NoDup (distinct l).
Proof. apply fold_set_add_NoDup, NoDup_nil_2. Qed.

Lemma set_add_length (acc : list A) (x : A) :
  (List.length acc <= List.length (set_add acc x) <= S (List.length acc))%nat.
Proof.
  unfold set_add. case_bool_decide; [lia|]. rewrite length_app. simpl. lia.
Qed.

Lemma distinct_length (l : list A) :
  (List.length (distinct l) <= List.length l)%nat.
Proof.
  unfold distinct.
  enough (∀ acc, List.length (fold_left set_add l acc)
                 <= List.length acc + List.length l)%nat as H
    by (specialize (H []); simpl in H; lia).
  induction l as [|x l IH]; intros acc; simpl; [lia|].
  specialize (IH (set_add acc x)).
  pose proof (set_add_length acc x). lia.
Qed.
End Sets.

(** ** Objects built by updates *)

Section Objects.
Import JS.
Context {V : Type}.
Implicit Types (o : obj V) (k : string) (v : V).

Lemma obj_get_set_eq o k v : obj_get (obj_set o k v) k = Some v.
Proof.
  induction o as [|[k' v'] o IH]; simpl.
  - by rewrite String.eqb_refl.
  - destruct (String.eqb_spec k k') as [->|Hne]; simpl.
    + by rewrite String.eqb_refl.
    + destruct (String.eqb_spec k k'); [done | exact IH].
Qed.

Lemma obj_get_set_ne o k k' v :
  k ≠ k' → obj_get (obj_set o k v) k' = obj_get o k'.
Proof.
  intros Hne. induction o as [|[k0 v0] o IH]; simpl.
  - destruct (String.eqb_spec k' k); congruence.
  - destruct (String.eqb_spec k k0) as [->|]; simpl.
    + destruct (String.eqb_spec k' k0); congruence.
    + destruct (String.eqb_spec k' k0); [done | exact IH].
Qed.

Lemma obj_get_None o k : obj_get o k = None ↔ k ∉ o.*1.
Proof.
  induction o as [|[k' v'] o IH]; simpl.
  - rewrite elem_of_nil. tauto.
  - rewrite not_elem_of_cons.
    destruct (String.eqb_spec k k'); [split; [done | tauto] | tauto].
Qed.

Lemma obj_get_Some o k v : obj_get o k = Some v → (k, v) ∈ o.
Proof.
  induction o as [|[k' v'] o IH]; simpl; [done|].
  destruct (String.eqb_spec k k') as [->|].
  - intros [= ->]. apply elem_of_cons. by left.
  - intros H. apply elem_of_cons. right. by apply IH.
Qed.

Lemma obj_elem_of o k v : NoDup o.*1 → (k, v) ∈ o ↔ obj_get o k = Some v.
Proof.
  intros Hnd. split; [|apply obj_get_Some].
  induction o as [|[k' v'] o IH]; simpl; [by intros ?%elem_of_nil|].
  apply NoDup_cons in Hnd as [Hk' Hnd].
  intros [[= -> ->]|Hin]%elem_of_cons.
  - by rewrite String.eqb_refl.
  - destruct (String.eqb_spec k k') as [->|]; [|by apply IH].
    destruct Hk'. apply (list_elem_of_fmap_2 fst) in Hin. exact Hin.
Qed.

Lemma obj_set_keys o k v :
  (obj_set o k v).*1 = set_add o.*1 k.
Proof.
  induction o as [|[k' v'] o IH]; cbn [obj_set].
  - unfold set_add. case_bool_decide as H; [by apply elem_of_nil in H | done].
  - destruct (String.eqb_spec k k') as [->|Hne]; rewrite !fmap_cons; cbn [fst].
    + unfold set_add. case_bool_decide as H; [done|]. destruct H. by left.
    + rewrite IH. unfold set_add.
      case_bool_decide as Hin; case_bool_decide as Hin'; try done.
      * destruct Hin'. by right.
      * apply elem_of_cons in Hin' as [?|?]; done.
Qed.

Lemma obj_set_NoDup o k v : NoDup o.*1 → NoDup (obj_set o k v).*1.
Proof. rewrite obj_set_keys. apply set_add_NoDup. Qed.


Lemma obj_entries_perm o : obj_entries o ≡ₚ o.
Proof.
  unfold obj_entries.
  rewrite (fmap_Permutation snd _ _ (sort_perm by_index (indexed o))).
  unfold indexed. induction o as [|[k v] o IH]; [done|].
  cbn [omap list_omap List.filter fst].
  destruct (array_index k) as [n|] eqn:E.
  - rewrite fmap_cons. cbn [snd app].
    rewrite bool_decide_eq_false_2 by done. by constructor.
  - rewrite bool_decide_eq_true_2 by done.
    rewrite <- Permutation_middle. by constructor.
Qed.

Lemma obj_keys_perm o : obj_keys o ≡ₚ o.*1.
Proof. unfold obj_keys. by rewrite obj_entries_perm. Qed.

Lemma obj_values_perm o : obj_values o ≡ₚ o.*2.
Proof. unfold obj_values. by rewrite obj_entries_perm. Qed.

Lemma obj_entries_elem_of o k v :
  NoDup o.*1 → (k, v) ∈ obj_entries o ↔ obj_get o k = Some v.
Proof. intros Hnd. rewrite obj_entries_perm. by apply obj_elem_of. Qed.

(** *** Folding updates by key *)

Context {X : Type} (key : X → string) (g : X → option V → V).

Definition update (m : obj V) (x : X) : obj V :=
  obj_set m (key x) (g x (obj_get m (key x))).

Definition matching (k : string) (l : list X) : list X :=
  List.filter (λ x, String.eqb (key x) k) l.

Lemma fold_update_get (l : list X) (m : obj V) (k : string) :
  obj_get (fold_left update l m) k
  = fold_left (λ ov x, Some (g x ov)) (matching k l) (obj_get m k).
Proof.
  revert m. induction l as [|x l IH]; intros m; simpl; [done|].
  rewrite IH. unfold matching. cbn [List.filter].
  destruct (String.eqb_spec (key x) k) as [<-|Hne]; cbn [fold_left]; unfold update.
  - by rewrite obj_get_set_eq.
  - by rewrite obj_get_set_ne.
Qed.

Lemma fold_update_keys (l : list X) (m : obj V) :
  (fold_left update l m).*1 = fold_left set_add (map key l) m.*1.
Proof.
  revert m. induction l as [|x l IH]; intros m; simpl; [done|].
  rewrite IH. unfold update. by rewrite obj_set_keys.
Qed.

Lemma fold_update_NoDup (l : list X) (m : obj V) :
  NoDup m.*1 → NoDup (fold_left update l m).*1.
Proof. rewrite fold_update_keys. apply fold_set_add_NoDup. Qed.

End Objects.

(** ** Tallies and the timeline *)

Section Tallies.
Import JS.
Context {X : Type} (key : X → string).

(** The step of a tally: [m[k] = (m[k] || 0) + 1]. *)
Definition tally_step (m : obj nat) (x : X) : obj nat :=
  obj_set m (key x) (default 0%nat (obj_get m (key x)) + 1)%nat.

Definition occurrences_of (k : string) (l : list X) : nat :=
  List.length (matching key k l).

Lemma count_fold (l : list X) (init : option nat) :
  fold_left (λ ov (_ : X), Some (default 0 ov + 1)%nat) l init
  = match l with
    | [] => init
    | _ => Some (default 0 init + List.length l)%nat
    end.
Proof.
  revert init. induction l as [|x l IH]; intros init; [done|].
  cbn [fold_left]. rewrite IH. destruct l; simpl; f_equal; lia.
Qed.

Lemma tally_get (l : list X) (k : string) :
  obj_get (fold_left tally_step l []) k
  = if (0 <? occurrences_of k l)%nat then Some (occurrences_of k l) else None.
Proof.
  unfold occurrences_of.
  etrans;
    [exact (fold_update_get key (λ _ ov, (default 0 ov + 1)%nat) l [] k)|].
  rewrite count_fold. cbn [obj_get]. by destruct (matching key k l).
Qed.

Lemma tally_default (l : list X) (k : string) :
  default 0%nat (obj_get (fold_left tally_step l []) k) = occurrences_of k l.
Proof.
  rewrite tally_get. destruct (occurrences_of k l); reflexivity.
Qed.

Lemma tally_keys (l : list X) :
  (fold_left tally_step l []).*1 = distinct (map key l).
Proof. apply (fold_update_keys key (λ _ ov, (default 0 ov + 1)%nat)). Qed.

Lemma tally_NoDup (l : list X) : NoDup (fold_left tally_step l []).*1.
Proof. rewrite tally_keys. apply distinct_NoDup. Qed.

Lemma occurrences_of_pos (l : list X) (k : string) :
  (0 < occurrences_of k l)%nat ↔ ∃ x, x ∈ l ∧ key x = k.
Proof.
  unfold occurrences_of, matching. split.
  - destruct (List.filter _ l) as [|x l'] eqn:E; simpl; [lia|]. intros _.
    assert (Hin : In x (List.filter (λ x, String.eqb (key x) k) l))
      by (rewrite E; by left).
    apply filter_In in Hin as [Hin Hk]. exists x.
    split; [by apply list_elem_of_In | by apply String.eqb_eq].
  - intros (x & Hin & Hk).
    assert (Hx : In x (List.filter (λ x, String.eqb (key x) k) l)).
    { apply filter_In. split; [by apply list_elem_of_In|].
      by apply String.eqb_eq. }
    destruct (List.filter _ l); [destruct Hx | simpl; lia].
Qed.
End Tallies.

Section Timeline.
Import JS Analytics.

(** A threat counts for the timeline when its [dateDetected] is truthy;
    its day is the first ten characters. *)
Definition dated (t : threat) : bool := truthy_str (dateDetected t).
Definition day_of (t : threat) : string :=
  substring0 10 (default "" (dateDetected t)).

Definition timeline_of (threats : list threat) : obj nat :=
  fold_left (tally_step day_of) (List.filter dated threats) [].

Lemma timeline_fold (threats : list threat) (m : obj nat) :
  fold_left
    (λ timeline t,
       match dateDetected t with
       | Some d =>
           if truthy_str (dateDetected t) then
             let date := substring0 10 d in
             obj_set timeline date (day_count timeline date + 1)%nat
           else timeline
       | None => timeline
       end)
    threats m
  = fold_left (tally_step day_of) (List.filter dated threats) m.
Proof.
  revert m. induction threats as [|t threats IH]; intros m; [done|].
  cbn [fold_left List.filter]. rewrite IH. unfold dated at 2.
  destruct (dateDetected t) as [d|] eqn:E; [|reflexivity].
  destruct (truthy_str (Some d)); [|reflexivity].
  cbn [fold_left]. unfold tally_step, day_of, day_count. by rewrite E.
Qed.

Lemma peak_fold (timeline : obj nat) (keys : list string) (k : string) :
  let peak :=
    fold_left
      (λ a b, if (day_count timeline b <? day_count timeline a)%nat
              then a else b) keys k in
  peak ∈ k :: keys
  ∧ ∀ k', k' ∈ k :: keys →
      (day_count timeline k' <= day_count timeline peak)%nat.
Proof.
  cbv zeta. revert k. induction keys as [|b keys IH]; intros k.
  - cbn [fold_left]. split; [by left|].
    by intros k' ->%list_elem_of_singleton.
  - cbn [fold_left].
    destruct (Nat.ltb_spec (day_count timeline b) (day_count timeline k))
      as [Hlt|Hge].
    + destruct (IH k) as [Hin Hmax]. split.
      * apply elem_of_cons in Hin as [->|Hin]; [by left|].
        right. by right.
      * intros k' [->|[->|Hk']%elem_of_cons]%elem_of_cons.
        -- apply Hmax. by left.
        -- transitivity (day_count timeline k); [lia|]. apply Hmax. by left.
        -- apply Hmax. by right.
    + destruct (IH b) as [Hin Hmax]. split.
      * by right.
      * intros k' [->|Hk']%elem_of_cons.
        -- transitivity (day_count timeline b); [lia|]. apply Hmax. by left.
        -- by apply Hmax.
Qed.

Lemma timeline_keys_nil (threats : list threat) :
  obj_keys (timeline_of threats) = [] ↔ List.filter dated threats = [].
Proof.
  split.
  - intros H.
    assert (Hk : (timeline_of threats).*1 = []).
    { apply Permutation_nil_r. rewrite <- H. symmetry. apply obj_keys_perm. }
    unfold timeline_of in Hk. rewrite tally_keys in Hk.
    destruct (List.filter dated threats) as [|t l]; [done|].
    assert (Hin : day_of t ∈ distinct (map day_of (t :: l)))
      by (apply distinct_elem; by left).
    rewrite Hk in Hin. by apply elem_of_nil in Hin.
  - intros H. unfold timeline_of. by rewrite H.
Qed.

Lemma filter_dated_nil (threats : list threat) :
  List.filter dated threats = []
  ↔ ∀ t, t ∈ threats → truthy_str (dateDetected t) = false.
Proof.
  split.
  - intros H t Ht. destruct (truthy_str (dateDetected t)) eqn:E; [|done].
    assert (Hin : In t (List.filter dated threats))
      by (apply filter_In; split; [by apply list_elem_of_In | exact E]).
    rewrite H in Hin. destruct Hin.
  - intros H. induction threats as [|t threats IH]; [done|].
    cbn [List.filter]. unfold dated at 1.
    rewrite (H t) by (by left). apply IH. intros t' Ht'. apply H. by right.
Qed.

Lemma analyzeTimeline_Throw (threats : list threat) :
  analyzeTimeline threats = Throw TypeError
  ↔ List.filter dated threats = [].
Proof.
  rewrite <- timeline_keys_nil.
  unfold analyzeTimeline. cbv zeta. rewrite timeline_fold.
  fold (timeline_of threats).
  destruct (obj_keys (timeline_of threats)); split; done.
Qed.

(** X1.  The timeline cannot be built without a dated threat: the
    reduction over the days, which has no initial value, throws exactly
    when no threat of the batch has a truthy [dateDetected]. *)
Theorem analyzeTimeline_throws_undated (threats : list threat) :
  analyzeTimeline threats = Throw TypeError
  ↔ ∀ t, t ∈ threats → truthy_str (dateDetected t) = false.
Proof. rewrite <- filter_dated_nil. apply analyzeTimeline_Throw. Qed.

(** X2.  When the timeline is built it counts, for each day, the dated
    threats of that day; the peak day is the day of some dated threat and
    no day has more threats than it; the trend is stable exactly when
    all the dated threats fall on one day. *)
Theorem analyzeTimeline_peak (threats : list threat) (a : timeline_analysis) :
  analyzeTimeline threats = Ok a →
  (∀ day, day_count (threatsPerDay a) day
          = List.length
              (List.filter (λ t, dated t && String.eqb (day_of t) day) threats))
  ∧ (∃ t, t ∈ threats ∧ dated t = true ∧ day_of t = peakDay a)
  ∧ (∀ day, (day_count (threatsPerDay a) day
             <= day_count (threatsPerDay a) (peakDay a))%nat)
  ∧ (trend a = STABLE
     ↔ (List.length (distinct (map day_of (List.filter dated threats))) <= 1)%nat).
Proof.
  unfold analyzeTimeline. cbv zeta. rewrite timeline_fold.
  fold (timeline_of threats).
  remember (sort by_code_units (obj_keys (timeline_of threats))) as dates
    eqn:Ed.
  destruct (obj_keys (timeline_of threats)) as [|k keys] eqn:Ek; [done|].
  intros [= <-]. cbn [threatsPerDay peakDay trend].
  assert (Hcount : ∀ day, day_count (timeline_of threats) day
            = List.length
                (List.filter (λ t, dated t && String.eqb (day_of t) day)
                   threats)).
  { intros day. unfold day_count, timeline_of. rewrite tally_default.
    unfold occurrences_of, matching. f_equal.
    clear. induction threats as [|t l IH]; [done|]. cbn [List.filter].
    destruct (dated t); cbn [List.filter andb]; [|exact IH].
    destruct (String.eqb (day_of t) day); by rewrite IH. }
  destruct (peak_fold (timeline_of threats) keys k) as [Hin Hmax].
  set (peak := fold_left _ keys k) in *.
  assert (Hkeys : ∀ day, day ∈ k :: keys
            ↔ ∃ t, t ∈ threats ∧ dated t = true ∧ day_of t = day).
  { intros day. rewrite <- Ek, obj_keys_perm. unfold timeline_of.
    rewrite tally_keys, distinct_elem, list_elem_of_In, in_map_iff.
    split.
    - intros (t & Hd & Ht). apply filter_In in Ht as [Ht Hdt].
      exists t. by rewrite list_elem_of_In.
    - intros (t & Ht & Hdt & Hd). exists t. split; [done|].
      apply filter_In. by rewrite <- list_elem_of_In. }
  split; [exact Hcount|]. split; [by apply Hkeys|]. split.
  - intros day. destruct (decide (day ∈ k :: keys)) as [Hd|Hd];
      [by apply Hmax|].
    assert (H0 : day_count (timeline_of threats) day = 0%nat); [|lia].
    rewrite Hcount.
    destruct (List.filter _ threats) as [|t l] eqn:E; [done|].
    destruct Hd. apply Hkeys. exists t.
    assert (Ht : In t (List.filter
                         (λ t, dated t && String.eqb (day_of t) day) threats))
      by (rewrite E; by left).
    apply filter_In in Ht as [Ht Hb]. apply andb_true_iff in Hb as [Hb1 Hb2].
    split; [by apply list_elem_of_In|]. split; [done|].
    by apply String.eqb_eq.
  - assert (Hlen : List.length dates
                   = List.length
                       (distinct (map day_of (List.filter dated threats)))).
    { rewrite Ed, sort_length, <- Ek.
      rewrite (Permutation_length (obj_keys_perm _)).
      unfold timeline_of. by rewrite tally_keys. }
    rewrite <- Hlen.
    destruct dates as [|d dates]; [simpl; split; [lia | done]|].
    cbn [head].
    destruct (last (d :: dates)) as [final|] eqn:El;
      [|by apply last_None in El].
    destruct (Nat.ltb_spec 1 (List.length (d :: dates))) as [H1|H1].
    + destruct (_ <? _)%nat; (split; [discriminate | intros; exfalso; lia]).
    + split; [lia | done].
Qed.

Definition dated_threat (day : string) : threat :=
  {| platform := "github"; username := "eve"; engagement := 10;
     riskLevel := "high"; dataType := Some "Source Code";
     dateDetected := Some day |}.

Lemma analyzeTimeline_peak_witness :
  let threats :=
    [ dated_threat "2024-05-01T10:00:00Z"; dated_threat "2024-05-02T08:00:00Z";
      dated_threat "2024-05-02T09:30:00Z" ] in
  ∃ a, analyzeTimeline threats = Ok a
       ∧ peakDay a = "2024-05-02"
       ∧ ∀ day, (day_count (threatsPerDay a) day
                 <= day_count (threatsPerDay a) (peakDay a))%nat.
Proof.
  intros threats. eexists. split; [reflexivity|]. split; [reflexivity|].
  exact (proj1 (proj2 (proj2 (analyzeTimeline_peak threats _ eq_refl)))).
Defined.
End Timeline.

(** ** Groups and correlations *)

Section Groups.
Import JS Analytics.

Lemma fold_push_if {A B} (c : A → bool) (f : A → B) (l : list A)
    (acc : list B) :
  fold_left (λ acc x, if c x then acc ++ [f x] else acc) l acc
  = acc ++ map f (List.filter c l).
Proof.
  revert acc. induction l as [|x l IH]; intros acc; cbn [fold_left List.filter].
  - by rewrite app_nil_r.
  - rewrite IH. destruct (c x); [|done].
    by rewrite <- app_assoc.
Qed.



Context (key : threat → string).





End Groups.

Section CorrelationFacts.
Import JS Analytics.
















End CorrelationFacts.

(** ** Rankings *)

Section Ranking.
Context {A : Type} (cmp : A → A → Z).
Hypothesis cmp_flip : ∀ x y, (0 < cmp x y)%Z → (cmp y x <= 0)%Z.
Hypothesis cmp_trans :
  ∀ x y z, (cmp x y <= 0)%Z → (cmp y z <= 0)%Z → (cmp x z <= 0)%Z.

Lemma sort_strongly_sorted (l : list A) :
  StronglySorted (JS.before cmp) (JS.sort cmp l).
Proof.
  apply Sorted_StronglySorted.
  - intros x y z. apply cmp_trans.
  - by apply sort_sorted.
Qed.

Lemma strongly_sorted_app (R : A → A → Prop) (l1 l2 : list A) :
  StronglySorted R (l1 ++ l2) →
  StronglySorted R l1 ∧ ∀ x y, x ∈ l1 → y ∈ l2 → R x y.
Proof.
  induction l1 as [|a l1 IH]; cbn [app]; intros H.
  - split; [constructor|]. by intros x y ?%elem_of_nil.
  - apply StronglySorted_inv in H as [H Hall]. destruct (IH H) as [H1 H2].
    rewrite Forall_forall in Hall. split.
    + constructor; [done|]. apply Forall_forall. intros x Hx.
      apply Hall, elem_of_app. by left.
    + intros x y [->|Hx]%elem_of_cons Hy; [|by apply H2].
      apply Hall, elem_of_app. by right.
Qed.

(** The first [k] of the sorted array: no element left out may stand
    before one that was taken, unless it may also stand after it. *)
Lemma sort_take_top (l : list A) (k : nat) :
  let top := take k (JS.sort cmp l) in
  let rest := drop k (JS.sort cmp l) in
  l ≡ₚ top ++ rest
  ∧ StronglySorted (JS.before cmp) top
  ∧ ∀ x y, x ∈ top → y ∈ rest → (cmp x y <= 0)%Z.
Proof.
  cbv zeta. pose proof (sort_strongly_sorted l) as Hs.
  rewrite <- (take_drop k (JS.sort cmp l)) in Hs.
  apply strongly_sorted_app in Hs as [H1 H2].
  split; [by rewrite take_drop, sort_perm|]. by split.
Qed.
End Ranking.

Section RankingLookup.
Context {A : Type} (R : A → A → Prop).

Lemma strongly_sorted_lookup (l : list A) (i j : nat) (x y : A) :
  StronglySorted R l → l !! i = Some x → l !! j = Some y → (i < j)%nat →
  R x y.
Proof.
  intros Hs. revert i j. induction Hs as [|a l Hs IH Hall]; intros i j.
  - by rewrite lookup_nil.
  - destruct i as [|i], j as [|j]; cbn [lookup list_lookup]; try lia.
    + intros [= ->] Hy _. rewrite Forall_forall in Hall.
      apply Hall. by eapply list_elem_of_lookup_2.
    + intros Hx Hy Hij. apply (IH i j); [done | done | lia].
Qed.
End RankingLookup.

Section TopThreats.
Import JS Analytics.

Definition by_score (a b : threat * Z) : Z := (b.2 - a.2)%Z.

Lemma by_score_flip (a b : threat * Z) :
  (0 < by_score a b)%Z → (by_score b a <= 0)%Z.
Proof. unfold by_score. lia. Qed.

Lemma by_score_trans (a b c : threat * Z) :
  (by_score a b <= 0)%Z → (by_score b c <= 0)%Z → (by_score a c <= 0)%Z.
Proof. unfold by_score. lia. Qed.

Definition scored (threats : list threat) : list (threat * Z) :=
  map (λ t, (t, calculateThreatScore t)) threats.

Lemma scored_elem (threats : list threat) (ts : threat * Z) :
  ts ∈ scored threats → ts.2 = calculateThreatScore ts.1 ∧ ts.1 ∈ threats.
Proof.
  unfold scored. rewrite list_elem_of_In, in_map_iff.
  intros (t & <- & Ht). by rewrite list_elem_of_In.
Qed.

Lemma identifyTopThreats_length (threats : list threat) (limit : nat) :
  List.length (identifyTopThreats threats limit)
  = Nat.min limit (List.length threats).
Proof.
  unfold identifyTopThreats. cbv zeta.
  rewrite length_imap, length_take, sort_length, length_map. lia.
Qed.

(** X5.  The top threats are the [limit] best of the batch by score, in
    descending order of score, numbered from 1; each carries the score
    of its own threat. *)
Theorem identifyTopThreats_ranking (threats : list threat) (limit : nat) :
  let top := identifyTopThreats threats limit in
  List.length top = Nat.min limit (List.length threats)
  ∧ (∀ i r, top !! i = Some r →
       rank r = S i ∧ threatScore r = calculateThreatScore (ranked r))
  ∧ (∀ i j r s, top !! i = Some r → top !! j = Some s → (i <= j)%nat →
       (threatScore s <= threatScore r)%Z)
  ∧ ∃ rest, threats ≡ₚ map ranked top ++ rest
      ∧ ∀ r t, r ∈ top → t ∈ rest →
          (calculateThreatScore t <= threatScore r)%Z.
Proof.
  cbv zeta. unfold identifyTopThreats. cbv zeta.
  fold (scored threats).
  change (λ a b : threat * Z, (b.2 - a.2)%Z) with by_score.
  set (sorted := sort by_score (scored threats)).
  set (f := λ (index : nat) (ts : threat * Z),
              {| rank := index + 1; ranked := ts.1; threatScore := ts.2 |}).
  destruct (sort_take_top by_score by_score_flip by_score_trans
              (scored threats) limit) as (Hperm & Hsorted & Htop).
  fold sorted in Hperm, Hsorted, Htop.
  assert (Hin : ∀ ts, ts ∈ sorted →
            ts.2 = calculateThreatScore ts.1 ∧ ts.1 ∈ threats).
  { intros ts Hts. apply scored_elem. subst sorted.
    by rewrite sort_perm in Hts. }
  assert (Hlook : ∀ i r, imap f (take limit sorted) !! i = Some r →
            ∃ ts, take limit sorted !! i = Some ts ∧ r = f i ts).
  { intros i r. rewrite list_lookup_imap.
    destruct (take limit sorted !! i) as [ts|]; [|done].
    intros [= <-]. by exists ts. }
  split; [|split; [|split]].
  - rewrite <- (identifyTopThreats_length threats limit). reflexivity.
  - intros i r (ts & Hts & ->)%Hlook. unfold f. cbn [rank ranked threatScore].
    split; [lia|]. apply Hin. apply list_elem_of_lookup_2 in Hts.
    by apply (subseteq_take limit).
  - intros i j r s (ts & Hts & ->)%Hlook (ts' & Hts' & ->)%Hlook Hij.
    unfold f. cbn [threatScore].
    destruct (decide (i = j)) as [->|Hne];
      [rewrite Hts in Hts'; by injection Hts' as ->|].
    assert (H : JS.before by_score ts ts').
    { apply (strongly_sorted_lookup _ (take limit sorted) i j);
        [done | done | done | lia]. }
    unfold JS.before, by_score in H. lia.
  - exists (map fst (drop limit sorted)). split.
    + rewrite (map_imap_const ranked fst) by done.
      rewrite <- map_app, take_drop.
      subst sorted. rewrite (Permutation_map fst (sort_perm _ _)).
      unfold scored. rewrite map_map. cbn [fst]. by rewrite map_id.
    + intros r t Hr Ht.
      apply list_elem_of_lookup in Hr as (i & (ts & Hts & ->)%Hlook).
      apply list_elem_of_In, in_map_iff in Ht as (ts' & <- & Hts').
      apply list_elem_of_In in Hts'. unfold f. cbn [threatScore].
      apply list_elem_of_lookup_2 in Hts.
      pose proof (Htop ts ts' Hts Hts') as H. unfold by_score in H.
      assert (Hs : ts' ∈ sorted).
      { rewrite <- (take_drop limit sorted). apply elem_of_app. by right. }
      apply Hin in Hs as [<- _]. lia.
Qed.
End TopThreats.

(** ** Immediate actions *)

Section ImmediateActions.
Import JS Analytics.

Definition revoke_keys : action_item :=
  {| priority := 1; action := "Revoke all exposed API keys";
     action_timeframe := "IMMEDIATE"; owner := "Security Team" |}.
Definition notify_customers : action_item :=
  {| priority := 2; action := "Initiate customer breach notification";
     action_timeframe := "24 hours"; owner := "Legal/PR" |}.
Definition crisis_response : action_item :=
  {| priority := 3; action := "Launch crisis communication response";
     action_timeframe := "4 hours"; owner := "Communications" |}.
Definition engage_specialists : action_item :=
  {| priority := 1; action := "Engage dark web monitoring specialists";
     action_timeframe := "IMMEDIATE"; owner := "Threat Intelligence" |}.

Definition viral (t : threat) : bool := negb (Qle_bool (engagement t) 5000).
Definition on_dark_web (t : threat) : bool := String.eqb (platform t) "Dark Web".

Lemma filter_nonempty {A} (p : A → bool) (l : list A) :
  (0 <? List.length (List.filter p l))%nat = existsb p l.
Proof.
  induction l as [|x l IH]; [done|]. cbn [List.filter existsb].
  destruct (p x); [done | exact IH].
Qed.

(** X6.  The immediate actions come out in a fixed order: key revocation,
    dark-web specialists, customer notification, crisis response; each
    is present exactly when its trigger holds for some threat. *)
Theorem getImmediateActions_order (threats : list threat) :
  getImmediateActions threats
  = (if existsb (has_type "API") threats then [revoke_keys] else [])
    ++ (if existsb on_dark_web threats then [engage_specialists] else [])
    ++ (if existsb (has_type "Customer") threats then [notify_customers]
        else [])
    ++ (if existsb viral threats then [crisis_response] else []).
Proof.
  unfold getImmediateActions. cbv zeta. rewrite filter_nonempty.
  fold viral. fold on_dark_web.
  destruct (existsb (has_type "API") threats),
    (existsb (has_type "Customer") threats), (existsb viral threats),
    (existsb on_dark_web threats); reflexivity.
Qed.



End ImmediateActions.

(** ** The report cache *)

Section ReportCache.
Import JS Analytics.

Lemma old_mono (now now' : Z) (r : report) :
  (now <= now')%Z → old now r = true → old now' r = true.
Proof. unfold old. rewrite !Z.ltb_lt. lia. Qed.

(** X8.  Sweeps compose: a sweep after an earlier sweep leaves what the
    later sweep alone leaves, in either order; a sweep never adds or
    changes an entry, and repeating it changes nothing. *)
Theorem clearOldReports_compose (now now' : Z)
    (reportCache : gmap string report) :
  (now <= now')%Z →
  clearOldReports now' (clearOldReports now reportCache)
    = clearOldReports now' reportCache
  ∧ clearOldReports now (clearOldReports now' reportCache)
    = clearOldReports now' reportCache
  ∧ clearOldReports now' reportCache ⊆ clearOldReports now reportCache
  ∧ clearOldReports now reportCache ⊆ reportCache
  ∧ clearOldReports now (clearOldReports now reportCache)
    = clearOldReports now reportCache.
Proof.
  intros Hle. pose proof (old_mono now now') as Hmono.
  repeat split.
  - apply map_eq. intros id. rewrite !clearOldReports_lookup.
    destruct (reportCache !! id) as [r|]; [|done].
    destruct (old now r) eqn:E; [by rewrite Hmono | done].
  - apply map_eq. intros id. rewrite !clearOldReports_lookup.
    destruct (reportCache !! id) as [r|]; [|done].
    destruct (old now' r) eqn:E'; [done|].
    destruct (old now r) eqn:E; [|done]. rewrite Hmono in E'; done.
  - apply map_subseteq_spec. intros id r.
    rewrite !clearOldReports_lookup.
    destruct (reportCache !! id) as [r'|]; [|done].
    destruct (old now' r') eqn:E'; [done|].
    destruct (old now r') eqn:E; [|done]. rewrite Hmono in E'; done.
  - apply map_subseteq_spec. intros id r.
    rewrite !clearOldReports_lookup.
    destruct (reportCache !! id) as [r'|]; [|done].
    by destruct (old now r').
  - apply map_eq. intros id. rewrite !clearOldReports_lookup.
    destruct (reportCache !! id) as [r|]; [|done].
    destruct (old now r) eqn:E; [done | by rewrite E].
Qed.

Lemma clearOldReports_compose_witness :
  (0 <= 1)%Z
  ∧ clearOldReports 1 (clearOldReports 0 ∅) = clearOldReports 1 ∅.
Proof.
  assert (H : (0 <= 1)%Z) by lia.
  split; [exact H|]. exact (proj1 (clearOldReports_compose 0 1 ∅ H)).
Defined.

Lemma report_id_inj (a b : Z) :
  String.append "report_" (pretty a) = String.append "report_" (pretty b) →
  a = b.
Proof. intros H. injection H as H. by apply (inj pretty). Qed.


(** X10.  Two reports generated at the same clock reading share their
    identifier, and the second replaces the first in the cache; at
    different readings both stay. *)
Theorem generateThreatReport_identifiers (id1 at1 id2 at2 : Z)
    (threats1 threats2 : list threat) (timeframe1 timeframe2 : string)
    (cache0 cache1 cache2 : gmap string report) (r1 r2 : report) :
  generateThreatReport id1 at1 threats1 timeframe1 cache0 = Ok (r1, cache1) →
  generateThreatReport id2 at2 threats2 timeframe2 cache1 = Ok (r2, cache2) →
  (reportId r1 = reportId r2 ↔ id1 = id2)
  ∧ getCachedReport (reportId r2) cache2 = Some r2
  ∧ getCachedReport (reportId r1) cache2
    = Some (if bool_decide (id1 = id2) then r2 else r1).
Proof.
  unfold generateThreatReport. cbv zeta.
  destruct (analyzeTimeline threats1) as [a1|]; [|done].
  destruct (analyzeTimeline threats2) as [a2|]; [|done].
  cbn [bind]. intros [= <- <-] [= <- <-].
  cbn [reportId]. unfold getCachedReport.
  split; [|split].
  - split; [apply report_id_inj | by intros ->].
  - apply lookup_insert_eq.
  - case_bool_decide as E.
    + subst id2. apply lookup_insert_eq.
    + rewrite lookup_insert_ne; [apply lookup_insert_eq|].
      intros H. by apply E, report_id_inj.
Qed.

Lemma generateThreatReport_identifiers_witness :
  let threats := [dated_threat "2024-05-01T10:00:00Z"] in
  ∃ r1 cache1 r2 cache2,
    generateThreatReport 7 7 threats "7d" ∅ = Ok (r1, cache1)
    ∧ generateThreatReport 7 8 threats "24h" cache1 = Ok (r2, cache2)
    ∧ getCachedReport (reportId r1) cache2 = Some r2.
Proof.
  intros threats. eexists _, _, _, _.
  split; [reflexivity|]. split; [reflexivity|].
  exact (proj2 (proj2 (generateThreatReport_identifiers 7 7 7 8 threats threats
                         "7d" "24h" ∅ _ _ _ _ eq_refl eq_refl))).
Defined.
End ReportCache.

(** ** The fields of a report *)

Section ReportFields.
Import JS Analytics.

Lemma fold_add_map {A} (f : A → Z) (l : list A) (acc : Z) :
  fold_left Z.add (map f l) acc = fold_left (λ sum t, sum + f t)%Z l acc.
Proof.
  revert acc. induction l as [|x l IH]; intros acc; [done|].
  cbn [map fold_left]. apply IH.
Qed.

Lemma calculateThreatScore_le (t : threat) : (calculateThreatScore t <= 100)%Z.
Proof. unfold calculateThreatScore. cbv zeta. lia. Qed.

Lemma calculateThreatScore_ge (t : threat) :
  (0 <= engagement t)%Q → (0 <= calculateThreatScore t)%Z.
Proof.
  intros H. rewrite calculateThreatScore_raw.
  pose proof (round_Q_nonneg _ (raw_score_nonneg t H)). lia.
Qed.

Lemma score_sum_le (threats : list threat) :
  (foldr Z.add 0 (map calculateThreatScore threats)
   <= 100 * Z.of_nat (List.length threats))%Z.
Proof.
  induction threats as [|t l IH]; [done|].
  cbn [map foldr List.length]. pose proof (calculateThreatScore_le t). lia.
Qed.

Lemma score_sum_ge (threats : list threat) :
  (∀ t, t ∈ threats → (0 <= engagement t)%Q) →
  (0 <= foldr Z.add 0 (map calculateThreatScore threats))%Z.
Proof.
  induction threats as [|t l IH]; intros H; [done|].
  cbn [map foldr].
  pose proof (calculateThreatScore_ge t (H t ltac:(by left))).
  assert (0 <= foldr Z.add 0 (map calculateThreatScore l))%Z; [|lia].
  apply IH. intros t' Ht'. apply H. by right.
Qed.

Lemma round_Q_mean (a n : Z) :
  (0 < n)%Z →
  ((a <= 100 * n)%Z → (round_Q (inject_Z a / inject_Z n) <= 100)%Z)
  ∧ ((0 <= a)%Z → (0 <= round_Q (inject_Z a / inject_Z n))%Z).
Proof.
  intros Hn.
  assert (Hq : (0 < inject_Z n)%Q)
    by (change 0%Q with (inject_Z 0); by rewrite <- Zlt_Qlt).
  split; intros Ha.
  - assert (H : (inject_Z a / inject_Z n <= 100)%Q).
    { apply Qle_shift_div_r; [done|].
      change 100%Q with (inject_Z 100). rewrite <- inject_Z_mult.
      by rewrite <- Zle_Qle. }
    unfold round_Q. change 100%Z with (Qfloor (100 + (1 # 2))).
    apply Qfloor_resp_le. lra.
  - apply round_Q_nonneg. apply Qle_shift_div_l; [done|].
    rewrite Qmult_0_l. change 0%Q with (inject_Z 0). by rewrite <- Zle_Qle.
Qed.

Lemma count_le_length {A} (p : A → bool) (l : list A) :
  (List.length (List.filter p l) <= List.length l)%nat.
Proof.
  induction l as [|x l IH]; [done|]. cbn [List.filter].
  destruct (p x); simpl; lia.
Qed.

Lemma disjoint_counts {A} (p q : A → bool) (l : list A) :
  (∀ x, p x = true → q x = false) →
  (List.length (List.filter p l) + List.length (List.filter q l)
   <= List.length l)%nat.
Proof.
  intros H. induction l as [|x l IH]; [done|]. cbn [List.filter].
  destruct (p x) eqn:Ep; [rewrite (H x Ep)|destruct (q x)]; simpl; lia.
Qed.

Lemma platformCounts_tally (threats : list threat) :
  distribution (calculateDispersion threats)
  = fold_left (tally_step platform) threats [].
Proof. reflexivity. Qed.

(** X11.  The fields of a report agree with one another: the platform
    count of the summary is the one of the dispersion, the average of the
    summary is the score of the risk assessment, the critical and high
    counts are within the total, and there are as many top threats as
    threats, up to ten.  For a non-empty batch the average is a number,
    at most 100, and not negative when no engagement is. *)
Theorem report_fields_agree (threats : list threat) :
  let s := summarize threats in
  uniquePlatforms s = platformCount (calculateDispersion threats)
  ∧ averageThreatScore s = score (assessOverallRisk threats)
  ∧ (criticalCount s + highCount s <= totalThreats s)%nat
  ∧ (uniquePlatforms s <= totalThreats s)%nat
  ∧ List.length (identifyTopThreats threats 10)
    = Nat.min 10 (totalThreats s)
  ∧ (threats ≠ [] →
     ∃ z, averageThreatScore s = of_Z z ∧ (z <= 100)%Z
          ∧ ((∀ t, t ∈ threats → (0 <= engagement t)%Q) → (0 <= z)%Z)).
Proof.
  cbv zeta. unfold summarize.
  cbn [uniquePlatforms averageThreatScore criticalCount highCount
       totalThreats].
  assert (Havg : fold_left (λ sum t, sum + calculateThreatScore t)%Z threats 0%Z
                 = foldr Z.add 0%Z (map calculateThreatScore threats)).
  { by rewrite <- fold_add_map, fold_add_foldr. }
  split; [|split; [|split; [|split; [|split]]]].
  - unfold calculateDispersion. cbv zeta. cbn [platformCount].
    rewrite (Permutation_length (obj_keys_perm _)).
    change (fold_left _ threats [])
      with (fold_left (tally_step platform) threats []).
    by rewrite tally_keys.
  - unfold assessOverallRisk. cbv zeta. cbn [score].
    by rewrite fold_add_map, length_map.
  - unfold critical_count. apply disjoint_counts.
    intros t Ht. apply String.eqb_eq in Ht. by rewrite Ht.
  - etrans; [apply distinct_length|]. by rewrite length_map.
  - apply identifyTopThreats_length.
  - intros Hne. rewrite Havg.
    assert (Hn : (0 < Z.of_nat (List.length threats))%Z)
      by (destruct threats; [done | simpl; lia]).
    unfold div. rewrite (proj2 (Z.eqb_neq _ 0)) by lia. cbn [round].
    destruct (round_Q_mean
                (foldr Z.add 0%Z (map calculateThreatScore threats))
                (Z.of_nat (List.length threats)) Hn) as [Hle Hge].
    eexists. split; [reflexivity|]. split.
    + apply Hle, score_sum_le.
    + intros H. by apply Hge, score_sum_ge.
Qed.
End ReportFields.

(** ** Business impact *)

Section Impact.
Import JS Analytics.

Lemma filter_app_length {A} (p : A → bool) (l l' : list A) :
  List.length (List.filter p (l ++ l'))
  = (List.length (List.filter p l) + List.length (List.filter p l'))%nat.
Proof. by rewrite List.filter_app, length_app. Qed.

(** X12.  Each of the four risk estimates lies between 0 and 100, is 0 for
    an empty batch, and does not decrease when threats are added to the
    batch. *)
Theorem risk_estimates_bounded_monotone (threats more : list threat) :
  Forall (λ estimate : list threat → Z,
            estimate [] = 0%Z
            ∧ (0 <= estimate threats <= 100)%Z
            ∧ (estimate threats <= estimate (threats ++ more))%Z)
    [ estimateFinancialRisk; estimateReputationalRisk;
      estimateOperationalRisk; estimateLegalRisk ].
Proof.
  repeat apply Forall_cons_2; [..|apply Forall_nil_2];
    (split; [reflexivity|]);
    unfold estimateFinancialRisk, estimateReputationalRisk,
      estimateOperationalRisk, estimateLegalRisk; cbv zeta;
    rewrite !filter_app_length; lia.
Qed.

Definition total_risk (threats : list threat) : Z :=
  (estimateFinancialRisk threats + estimateReputationalRisk threats
   + estimateOperationalRisk threats + estimateLegalRisk threats)%Z.

Lemma quarter_gt (z : Z) (c : positive) :
  negb (Qle_bool (inject_Z z / 4) (inject_Z (Z.pos c)))
  = (4 * Z.pos c <? z)%Z.
Proof.
  unfold Qle_bool, Qdiv, Qmult, Qinv, inject_Z. cbn [Qnum Qden].
  destruct (Z.ltb_spec (4 * Z.pos c) z),
    (Z.leb_spec (z * 1 * 1) (Z.pos c * Z.pos (1 * 4)));
    cbn [negb]; lia.
Qed.

Lemma single_total_risk (t : threat) : (total_risk [t] <= 220)%Z.
Proof.
  unfold total_risk, estimateFinancialRisk, estimateReputationalRisk,
    estimateOperationalRisk, estimateLegalRisk. cbv zeta.
  cbn [List.filter].
  destruct (has_type "Customer" t), (has_type "Financial" t),
    (negb (Qle_bool (engagement t) 5000)),
    (bool_decide (platform t ∈ ["Twitter"; "Reddit"; "LinkedIn"])),
    (String.eqb (riskLevel t) "critical"), (has_type "API" t),
    (has_type "Database" t), (has_type "Source" t), (has_type "Employee" t);
    cbn [List.length]; lia.
Qed.

(** X13.  The summary of the impact analysis is read off the sum of the
    four estimates: above 300 critical, above 200 high, above 100
    medium, low otherwise.  The sum does not decrease when threats are
    added; it is 0 for an empty batch and at most 220 for a single
    threat, so that one threat alone is never critical. *)
Theorem generateImpactAnalysis_summary (threats more : list threat)
    (t : threat) :
  let impact := generateImpactAnalysis threats in
  let total :=
    (financialRisk impact + reputationalRisk impact
     + operationalRisk impact + legalRisk impact)%Z in
  impact_summary impact
  = (if (300 <? total)%Z then
       "CRITICAL: Immediate executive and board notification required"
     else if (200 <? total)%Z then
       "HIGH: Significant risk requiring immediate action"
     else if (100 <? total)%Z then
       "MEDIUM: Moderate risk requiring prompt attention"
     else "LOW: Manageable risk, monitor and document")
  ∧ total = total_risk threats
  ∧ (total_risk threats <= total_risk (threats ++ more))%Z
  ∧ impact_summary (generateImpactAnalysis [])
    = "LOW: Manageable risk, monitor and document"
  ∧ impact_summary (generateImpactAnalysis [t])
    ≠ "CRITICAL: Immediate executive and board notification required".
Proof.
  cbv zeta.
  assert (Hsum : ∀ l,
    impact_summary (generateImpactAnalysis l)
    = (if (300 <? total_risk l)%Z then
         "CRITICAL: Immediate executive and board notification required"
       else if (200 <? total_risk l)%Z then
         "HIGH: Significant risk requiring immediate action"
       else if (100 <? total_risk l)%Z then
         "MEDIUM: Moderate risk requiring prompt attention"
       else "LOW: Manageable risk, monitor and document")).
  { intros l. unfold generateImpactAnalysis. cbv zeta.
    cbn [impact_summary]. fold (total_risk l).
    change 75%Q with (inject_Z 75). change 50%Q with (inject_Z 50).
    change 25%Q with (inject_Z 25). by rewrite !quarter_gt. }
  split; [exact (Hsum threats)|]. split; [reflexivity|]. split; [|split].
  - unfold total_risk, estimateFinancialRisk, estimateReputationalRisk,
      estimateOperationalRisk, estimateLegalRisk. cbv zeta.
    rewrite !filter_app_length. lia.
  - reflexivity.
  - rewrite Hsum. pose proof (single_total_risk t) as H.
    destruct (Z.ltb_spec 300 (total_risk [t])); [lia|].
    by repeat destruct (_ <? _)%Z.
Qed.
End Impact.

(** ** Platform dispersion *)

Section Dispersion.
Import JS Analytics.

Lemma constant_NoDup {A} (l : list A) (a : A) :
  NoDup l → l ≠ [] → (∀ x, x ∈ l → x = a) → l = [a].
Proof.
  intros Hnd Hne Hall. destruct l as [|x [|y l]]; [done| |].
  - f_equal. apply Hall. by left.
  - apply NoDup_cons in Hnd as [Hx _]. destruct Hx.
    rewrite (Hall x) by (by left).
    rewrite <- (Hall y) by (right; by left). by left.
Qed.

Lemma single_key {V} (o : obj V) (k : string) :
  o.*1 = [k] → ∃ v, o = [(k, v)].
Proof.
  destruct o as [|[k' v] [|? ?]]; [done| |done].
  intros [= ->]. by exists v.
Qed.

Lemma variance_single (v : Q) (c : Z) :
  (0 <= c)%Z →
  gt (Fin (fold_left
             (λ sum val,
                sum + (val - (fold_left Qplus [v] 0 / inject_Z 1))
                      * (val - (fold_left Qplus [v] 0 / inject_Z 1)))%Q
             [v] 0 / inject_Z 1)%Q) c = false.
Proof.
  intros Hc. unfold gt. apply negb_false_iff, Qle_bool_iff.
  cbn [fold_left].
  assert (H : ((0 + (v - (0 + v) / inject_Z 1) * (v - (0 + v) / inject_Z 1))
               / inject_Z 1 == 0)%Q)
    by (change (inject_Z 1) with 1%Q; field).
  rewrite H. change 0%Q with (inject_Z 0). by rewrite <- Zle_Qle.
Qed.

(** X14.  The dispersion counts, for each platform, the threats of the
    batch on it; its platform count is the number of distinct platforms;
    and a batch on a single platform, or an empty one, has a low
    dispersion. *)
Theorem calculateDispersion_counts (threats : list threat) :
  let d := calculateDispersion threats in
  (∀ p, default 0%nat (obj_get (distribution d) p)
        = List.length (List.filter (λ t, String.eqb (platform t) p) threats))
  ∧ platformCount d = List.length (distinct (map platform threats))
  ∧ (∀ p, (∀ t, t ∈ threats → platform t = p) →
          dispersionLevel d = DISP_LOW).
Proof.
  cbv zeta. split; [|split].
  - intros p. rewrite platformCounts_tally. apply tally_default.
  - unfold calculateDispersion. cbv zeta. cbn [platformCount].
    rewrite (Permutation_length (obj_keys_perm _)).
    change (fold_left _ threats [])
      with (fold_left (tally_step platform) threats []).
    by rewrite tally_keys.
  - intros p Hp. unfold calculateDispersion. cbv zeta.
    cbn [dispersionLevel].
    change (fold_left _ threats [])
      with (fold_left (tally_step platform) threats []).
    destruct threats as [|t l]; [reflexivity|].
    assert (Hk : (fold_left (tally_step platform) (t :: l) []).*1 = [p]).
    { rewrite tally_keys. apply constant_NoDup.
      - apply distinct_NoDup.
      - intros E.
        assert (Hin : platform t ∈ distinct (map platform (t :: l)))
          by (apply distinct_elem; by left).
        rewrite E in Hin. by apply elem_of_nil in Hin.
      - intros x Hx. apply distinct_elem, list_elem_of_In, in_map_iff in Hx
          as (t' & <- & Ht'). apply Hp. by apply list_elem_of_In. }
    apply single_key in Hk as [v Hv]. rewrite Hv.
    unfold obj_values. rewrite obj_entries_single.
    cbn [fmap list_fmap snd map List.length].
    change (Z.of_nat 1) with 1%Z.
    by rewrite !variance_single.
Qed.
End Dispersion.

(** ** Threat patterns *)

Section Patterns.
Import JS Analytics.










End Patterns.

(** ** Confidence, categories and risk level *)

Section Confidence.
Import JS Detection.

(** X16.  The confidence score is 0 exactly when neither a keyword nor a
    pattern was found; it is at most 100, the final cap never cutting
    anything off; and it does not decrease when more keywords or more
    pattern entries are found. *)
Theorem calculateConfidenceScore_range (keywords keywords' : list keyword_match)
    (patterns patterns' : list pattern) :
  let k := List.length keywords in
  let p := List.length patterns in
  calculateConfidenceScore keywords patterns
  = (Nat.min (p * 15) 50 + Nat.min (k * 5) 30
     + (if (0 <? p)%nat then 10 else 0) + (if (3 <? k)%nat then 10 else 0))%nat
  ∧ (calculateConfidenceScore keywords patterns <= 100)%nat
  ∧ (calculateConfidenceScore keywords patterns = 0%nat
     ↔ keywords = [] ∧ patterns = [])
  ∧ ((k <= List.length keywords')%nat → (p <= List.length patterns')%nat →
     (calculateConfidenceScore keywords patterns
      <= calculateConfidenceScore keywords' patterns')%nat).
Proof.
  cbv zeta. unfold calculateConfidenceScore. cbv zeta.
  split; [|split; [|split]].
  - destruct (Nat.ltb_spec 0 (List.length patterns)),
      (Nat.ltb_spec 3 (List.length keywords)); lia.
  - destruct (Nat.ltb_spec 0 (List.length patterns)),
      (Nat.ltb_spec 3 (List.length keywords)); lia.
  - split.
    + intros H.
      assert (H0 : List.length keywords = 0%nat ∧ List.length patterns = 0%nat).
      { destruct (Nat.ltb_spec 0 (List.length patterns)),
          (Nat.ltb_spec 3 (List.length keywords)); lia. }
      destruct H0 as [Hk Hp].
      by apply nil_length_inv in Hk, Hp.
    + by intros [-> ->].
  - intros Hk Hp.
    destruct (Nat.ltb_spec 0 (List.length patterns)),
      (Nat.ltb_spec 3 (List.length keywords)),
      (Nat.ltb_spec 0 (List.length patterns')),
      (Nat.ltb_spec 3 (List.length keywords')); lia.
Qed.
End Confidence.

Section Categories.
Import JS Detection.

Definition categories : list string :=
  [ "Employee Information"; "Customer Records"; "API Keys/Secrets";
    "Database Schema"; "Authentication Credentials"; "Source Code";
    "Financial Data"; "Security Vulnerability"; "Strategic Information" ].

Definition category_set (l : list string) : Prop :=
  NoDup l ∧ ∀ x, x ∈ l → x ∈ categories.

Lemma add_if_category (b : bool) (x : string) (l : list string) :
  x ∈ categories → category_set l → category_set (add_if b x l).
Proof.
  intros Hx [Hnd Hsub]. unfold add_if. destruct b; [|done]. split.
  - by apply set_add_NoDup.
  - intros y [Hy| ->]%set_add_elem; [by apply Hsub | done].
Qed.

Lemma NoDup_subset_length (l k : list string) :
  NoDup l → (∀ x, x ∈ l → x ∈ k) → (List.length l <= List.length k)%nat.
Proof.
  intros Hnd Hsub. apply submseteq_length, NoDup_submseteq; done.
Qed.

Lemma classifyDataExposure_category_set (content : string)
    (keywords : list keyword_match) :
  category_set (classifyDataExposure content keywords).
Proof.
  unfold classifyDataExposure. cbv zeta.
  assert (Hin : ∀ x, In x categories → x ∈ categories)
    by (intros x; apply list_elem_of_In).
  repeat (apply add_if_category; [apply Hin; cbn; tauto|]).
  generalize (@nil string) (conj (NoDup_nil_2 (A:=string))
    (λ x (H : x ∈ []), False_ind (x ∈ categories) (proj1 (elem_of_nil x) H))).
  induction keywords as [|kw kws IH]; intros acc Hacc; [exact Hacc|].
  cbn [fold_left]. apply IH.
  repeat (apply add_if_category; [apply Hin; cbn; tauto|]). exact Hacc.
Qed.

(** X17.  The inferred categories are distinct and come from the nine the
    classifier knows, so that there are nine at most and they add 72 at
    most to the risk score. *)
Theorem classifyDataExposure_categories (content : string)
    (keywords : list keyword_match) :
  let dataTypes := classifyDataExposure content keywords in
  NoDup dataTypes
  ∧ (∀ x, x ∈ dataTypes → x ∈ categories)
  ∧ (List.length dataTypes <= 9)%nat
  ∧ ∀ patterns,
      (riskScore keywords patterns dataTypes
       <= riskScore keywords patterns [] + 72)%nat.
Proof.
  cbv zeta.
  destruct (classifyDataExposure_category_set content keywords) as [Hnd Hsub].
  assert (Hlen : (List.length (classifyDataExposure content keywords) <= 9)%nat)
    by (apply (NoDup_subset_length _ categories); done).
  split; [done|]. split; [done|]. split; [done|].
  intros patterns. rewrite !riskScore_accumulated. unfold Spec.accumulated.
  simpl List.length. lia.
Qed.
End Categories.

Section RiskLevel.
Import JS Detection.

Lemma hits_app (s : level) (l l' : list pattern) :
  Spec.hits s (l ++ l') = (Spec.hits s l + Spec.hits s l')%nat.
Proof. unfold Spec.hits. by rewrite List.filter_app, length_app. Qed.

Lemma occurrences_app (l l' : list keyword_match) :
  Spec.total_keyword_occurrences (l ++ l')
  = (Spec.total_keyword_occurrences l + Spec.total_keyword_occurrences l')%nat.
Proof.
  unfold Spec.total_keyword_occurrences.
  induction l as [|k l IH]; [done|]. cbn [app map foldr]. rewrite IH. lia.
Qed.

Lemma bucket_mono (a b : nat) :
  (a <= b)%nat →
  (severityMap (Spec.bucket a) <= severityMap (Spec.bucket b))%Z.
Proof.
  intros H. unfold Spec.bucket.
  destruct (Nat.leb_spec 70 a), (Nat.leb_spec 70 b),
    (Nat.leb_spec 50 a), (Nat.leb_spec 50 b),
    (Nat.ltb_spec a 70), (Nat.ltb_spec b 70),
    (Nat.leb_spec 30 a), (Nat.leb_spec 30 b),
    (Nat.ltb_spec a 50), (Nat.ltb_spec b 50); cbn; lia.
Qed.

(** X18.  More findings never lower the risk level: with further keyword
    matches, pattern entries or categories the accumulated score and the
    rank of the level stay or grow. *)
Theorem calculateRiskLevel_monotone
    (keywords keywords' : list keyword_match)
    (patterns patterns' : list pattern) (dataTypes dataTypes' : list string) :
  (riskScore keywords patterns dataTypes
   <= riskScore (keywords ++ keywords') (patterns ++ patterns')
        (dataTypes ++ dataTypes'))%nat
  ∧ (severityMap (calculateRiskLevel keywords patterns dataTypes)
     <= severityMap
          (calculateRiskLevel (keywords ++ keywords') (patterns ++ patterns')
             (dataTypes ++ dataTypes')))%Z.
Proof.
  assert (H : (riskScore keywords patterns dataTypes
               <= riskScore (keywords ++ keywords') (patterns ++ patterns')
                    (dataTypes ++ dataTypes'))%nat).
  { rewrite !riskScore_accumulated. unfold Spec.accumulated.
    rewrite !hits_app, occurrences_app, length_app. lia. }
  split; [exact H|]. rewrite !calculateRiskLevel_bucket.
  apply bucket_mono. by rewrite <- !riskScore_accumulated.
Qed.
End RiskLevel.

(** ** The keyword pass *)

Section KeywordPass.
Import JS Regex Detection.


















Lemma detectKeywords_map (content : string) :
  detectKeywords content
  = map (λ kw, {| keyword := kw;
                  kw_count := List.length (match_all (keyword_re kw) content);
                  occurrences := findOccurrences content kw |})
        (List.filter
           (λ kw, includes (toLowerCase content) (toLowerCase kw))
           monitoredKeywords).
Proof.
  unfold detectKeywords. cbv zeta.
  exact (fold_push_if _ _ monitoredKeywords []).
Qed.

End KeywordPass.

(** ** The incident report *)

Section IncidentTopThreats.
Import JS Detection.



Lemma incident_top_length (leakAnalyses : list analysis) :
  List.length (identifyTopThreats leakAnalyses).1
  = Nat.min 5 (List.length leakAnalyses).
Proof.
  unfold identifyTopThreats. cbv zeta. cbn [fst].
  rewrite length_imap, length_take, sort_length. lia.
Qed.


(** X21.  The counts of the incident report are those of the batch: the
    critical and the high incidents are within the total; the affected
    platforms and the exposed data types are those of the analyses,
    each once; there are as many top threats as incidents, up to five. *)
Theorem incident_report_fields (now : Z) (leakAnalyses : list analysis)
    (timeframe : string) :
  let r := (generateThreatReport now leakAnalyses timeframe).1 in
  generated r = now
  ∧ totalIncidents r = List.length leakAnalyses
  ∧ (criticalIncidents r + highRiskIncidents r <= totalIncidents r)%nat
  ∧ NoDup (affectedPlatforms r)
  ∧ (∀ p, p ∈ affectedPlatforms r
          ↔ ∃ a, a ∈ leakAnalyses ∧ platform a = p)
  ∧ NoDup (dataTypesExposed r)
  ∧ (∀ d, d ∈ dataTypesExposed r
          ↔ ∃ a, a ∈ leakAnalyses ∧ d ∈ dataExposed a)
  ∧ List.length (topThreats r) = Nat.min 5 (totalIncidents r).
Proof.
  cbv zeta. unfold generateThreatReport. cbv zeta.
  destruct (identifyTopThreats leakAnalyses) as [top sorted] eqn:E.
  cbn [fst generated totalIncidents criticalIncidents highRiskIncidents
       affectedPlatforms dataTypesExposed topThreats].
  split; [done|]. split; [done|]. split.
  { apply disjoint_counts. intros a Ha.
    apply bool_decide_eq_true in Ha. rewrite Ha. by apply bool_decide_eq_false_2. }
  split; [apply distinct_NoDup|]. split.
  { intros p. rewrite distinct_elem, list_elem_of_In, in_map_iff.
    split; intros (a & H1 & H2); exists a;
      [by rewrite list_elem_of_In | by rewrite <- list_elem_of_In]. }
  split; [apply distinct_NoDup|]. split.
  { intros d. rewrite distinct_elem, list_elem_of_In, in_flat_map.
    split; intros (a & H1 & H2); exists a.
    - by rewrite !list_elem_of_In.
    - by rewrite <- !list_elem_of_In. }
  pose proof (incident_top_length leakAnalyses) as H.
  by rewrite E in H.
Qed.
End IncidentTopThreats.

(** ** Recommendations *)

Section Recommendations.
Import JS Detection.

Definition rotate_credentials : recommendation :=
  {| priority := "URGENT";
     action := "Immediately revoke and rotate all exposed credentials";
     target := "Security Team" |}.
Definition press_release : recommendation :=
  {| priority := "URGENT";
     action := "Issue press release acknowledging the data exposure";
     target := "PR/Communications" |}.
Definition regenerate_keys : recommendation :=
  {| priority := "HIGH";
     action := "Regenerate all exposed API keys immediately";
     target := "DevOps/Security" |}.
Definition fraud_report : recommendation :=
  {| priority := "CRITICAL";
     action := "Contact payment processor and file fraud report";
     target := "Finance/Legal" |}.
Definition notify_employees : recommendation :=
  {| priority := "HIGH";
     action := "Notify affected employees and offer credit monitoring";
     target := "HR" |}.
Definition breach_disclosure : recommendation :=
  {| priority := "HIGH";
     action := "Prepare customer notification and breach disclosure";
     target := "Legal/Compliance" |}.
Definition removal_request (a : analysis) : recommendation :=
  {| priority := "MEDIUM";
     action := String.append "Request content removal from " (platform a);
     target := "Social Media Management" |}.
Definition audit_trail : recommendation :=
  {| priority := "MEDIUM";
     action := "File incident report and document for audit trail";
     target := "Risk Management" |}.

Definition conditional (a : analysis) : list recommendation :=
  (if bool_decide (riskLevel a = critical)
   then [rotate_credentials; press_release] else [])
  ++ (if existsb (λ el, bool_decide (type el = API_KEY))
            (suspiciousElements a)
      then [regenerate_keys] else [])
  ++ (if existsb (λ el, bool_decide (type el = CREDIT_CARD))
            (suspiciousElements a)
      then [fraud_report] else [])
  ++ (if bool_decide ("Employee Information" ∈ dataExposed a)
      then [notify_employees] else [])
  ++ (if bool_decide ("Customer Records" ∈ dataExposed a)
      then [breach_disclosure] else []).

Lemma generateRecommendations_parts (a : analysis) :
  generateRecommendations a
  = conditional a ++ [removal_request a; audit_trail].
Proof.
  unfold generateRecommendations, conditional, push_if. cbv zeta.
  generalize (bool_decide (riskLevel a = critical)),
    (existsb (λ el, bool_decide (type el = API_KEY)) (suspiciousElements a)),
    (existsb (λ el, bool_decide (type el = CREDIT_CARD))
       (suspiciousElements a)),
    (bool_decide ("Employee Information" ∈ dataExposed a)),
    (bool_decide ("Customer Records" ∈ dataExposed a)).
  intros [] [] [] [] []; reflexivity.
Qed.

Fixpoint distinct_strings (l : list string) : bool :=
  match l with
  | [] => true
  | x :: l' => negb (existsb (String.eqb x) l') && distinct_strings l'
  end.

Lemma distinct_strings_NoDup (l : list string) :
  distinct_strings l = true → NoDup l.
Proof.
  induction l as [|x l IH]; [intros _; apply NoDup_nil_2|].
  cbn [distinct_strings]. intros [Hx Hl]%andb_true_iff.
  apply NoDup_cons_2; [|by apply IH].
  rewrite list_elem_of_In. intros Hin.
  apply negb_true_iff in Hx.
  assert (existsb (String.eqb x) l = true); [|congruence].
  apply existsb_exists. exists x. split; [done | apply String.eqb_refl].
Qed.

Lemma actions_NoDup (a : analysis) :
  NoDup (map action (generateRecommendations a)).
Proof.
  rewrite generateRecommendations_parts. unfold conditional.
  generalize (bool_decide (riskLevel a = critical)),
    (existsb (λ el, bool_decide (type el = API_KEY)) (suspiciousElements a)),
    (existsb (λ el, bool_decide (type el = CREDIT_CARD))
       (suspiciousElements a)),
    (bool_decide ("Employee Information" ∈ dataExposed a)),
    (bool_decide ("Customer Records" ∈ dataExposed a)).
  generalize (platform a). intros p.
  intros [] [] [] [] []; apply distinct_strings_NoDup; vm_compute;
    reflexivity.
Qed.

(** X22.  Every analysis gets between two and eight recommendations, with
    distinct actions; the last two are the standing ones, the request to
    remove the content from the platform and the audit trail, the only
    ones of priority MEDIUM; the urgent ones are there exactly when the
    risk level is critical. *)
Theorem generateRecommendations_shape (a : analysis) :
  let recs := generateRecommendations a in
  (2 <= List.length recs <= 8)%nat
  ∧ NoDup (map action recs)
  ∧ (∃ before, recs = before ++ [removal_request a; audit_trail]
       ∧ ∀ r, r ∈ before → priority r ≠ "MEDIUM")
  ∧ ((∃ r, r ∈ recs ∧ priority r = "URGENT") ↔ riskLevel a = critical).
Proof.
  cbv zeta. split; [|split; [apply actions_NoDup|split]].
  - rewrite generateRecommendations_parts, length_app. unfold conditional.
    rewrite !length_app.
    repeat match goal with
           | |- context [List.length (if ?b then _ else _)] => destruct b
           end; cbn [List.length]; lia.
  - exists (conditional a). split; [apply generateRecommendations_parts|].
    intros r. unfold conditional. rewrite !elem_of_app.
    repeat match goal with
           | |- context [if ?b then _ else _] => destruct b
           end;
      rewrite ?elem_of_cons, !elem_of_nil;
      intros H; repeat destruct H as [H|H]; try done; by subst r.
  - rewrite generateRecommendations_parts. unfold conditional.
    case_bool_decide as Hc.
    + split; [done|]. intros _. exists rotate_credentials.
      split; [|done]. apply elem_of_app. left. apply elem_of_app. left.
      by left.
    + split; [|done]. intros (r & Hr & Hp). exfalso. revert Hr.
      rewrite !elem_of_app.
      repeat match goal with
             | |- context [if ?b then _ else _] => destruct b
             end;
        rewrite ?elem_of_cons, !elem_of_nil;
        intros H; repeat destruct H as [H|H]; try done; by subst r.
Qed.
End Recommendations.

(** ** Aggregated recommendations *)

Section NestedFolds.
Context {A C M : Type} (items : A → list C) (step : M → A → C → M).

(** The pairs a loop within a loop goes through, in its order. *)
Definition pairs (l : list A) : list (A * C) :=
  flat_map (λ a, map (pair a) (items a)) l.

Lemma fold_pairs (l : list A) (m : M) :
  fold_left (λ m a, fold_left (λ m c, step m a c) (items a) m) l m
  = fold_left (λ m ac, step m ac.1 ac.2) (pairs l) m.
Proof.
  revert m. induction l as [|a l IH]; intros m; [done|].
  cbn [fold_left pairs flat_map]. rewrite fold_left_app, IH. f_equal.
  generalize (items a). clear. intros cs. revert m.
  induction cs as [|c cs IH]; intros m; [done|]. cbn. apply IH.
Qed.

Lemma pairs_elem (l : list A) (a : A) (c : C) :
  (a, c) ∈ pairs l ↔ a ∈ l ∧ c ∈ items a.
Proof.
  unfold pairs. rewrite list_elem_of_In, in_flat_map. split.
  - intros (a' & Ha' & Hin). apply in_map_iff in Hin as (c' & [= -> ->] & Hc).
    by rewrite !list_elem_of_In.
  - intros [Ha Hc]. exists a. rewrite <- list_elem_of_In. split; [done|].
    apply in_map_iff. exists c. by rewrite <- list_elem_of_In.
Qed.
End NestedFolds.

Section Counting.
Context {A : Type}.

Lemma filter_head (p : A → bool) (l : list A) (x : A) (l' : list A) :
  List.filter p l = x :: l' → p x = true ∧ x ∈ l.
Proof.
  intros E. assert (Hin : In x (List.filter p l)) by (rewrite E; by left).
  apply filter_In in Hin as [Hin Hp]. by rewrite list_elem_of_In.
Qed.

Lemma filter_all (p : A → bool) (l : list A) (x : A) :
  x ∈ List.filter p l ↔ x ∈ l ∧ p x = true.
Proof. rewrite !list_elem_of_In. apply filter_In. Qed.

Lemma count_key_NoDup (f : A → string) (k : string) (l : list A) :
  NoDup (map f l) →
  List.length (List.filter (λ x, String.eqb (f x) k) l)
  = if bool_decide (k ∈ map f l) then 1%nat else 0%nat.
Proof.
  induction l as [|x l IH]; [done|]. cbn [map List.filter].
  intros [Hx Hl]%NoDup_cons. specialize (IH Hl).
  destruct (String.eqb_spec (f x) k) as [<-|Hne].
  - cbn [List.length]. rewrite IH.
    rewrite bool_decide_eq_false_2 by done.
    rewrite bool_decide_eq_true_2; [done | by left].
  - rewrite IH. case_bool_decide as H1; case_bool_decide as H2; try done.
    + destruct H2. by right.
    + apply elem_of_cons in H2 as [?|?]; done.
Qed.
End Counting.

Section Aggregation.
Import JS Detection.

Definition incident (ar : analysis * recommendation) : string * string :=
  (platform ar.1, username ar.1).

Definition aggregate_entry (ar : analysis * recommendation)
    (ov : option aggregated) : aggregated :=
  let entry :=
    match ov with
    | Some e => e
    | None => {| rec := ar.2; frequency := 0; relatedIncidents := [] |}
    end in
  {| rec := rec entry;
     frequency := frequency entry + 1;
     relatedIncidents := relatedIncidents entry ++ [incident ar] |}.

Definition action_of (ar : analysis * recommendation) : string := action ar.2.

Definition issued (l : list analysis) : list (analysis * recommendation) :=
  pairs generateRecommendations l.

Definition recommendationMap (l : list analysis) : obj aggregated :=
  fold_left (update action_of aggregate_entry) (issued l) [].

Definition by_frequency (a b : aggregated) : Z :=
  (Z.of_nat (frequency b) - Z.of_nat (frequency a))%Z.

Lemma aggregateRecommendations_map (l : list analysis) :
  aggregateRecommendations l
  = take 10 (sort by_frequency (obj_values (recommendationMap l))).
Proof.
  unfold aggregateRecommendations, recommendationMap, issued. cbv zeta.
  fold by_frequency. do 3 f_equal.
  exact (fold_pairs generateRecommendations
           (λ m a r, update action_of aggregate_entry m (a, r)) l []).
Qed.

Lemma aggregate_fold (mine : list (analysis * recommendation))
    (e : aggregated) :
  fold_left (λ ov x, Some (aggregate_entry x ov)) mine (Some e)
  = Some {| rec := rec e;
            frequency := frequency e + List.length mine;
            relatedIncidents := relatedIncidents e ++ map incident mine |}.
Proof.
  revert e. induction mine as [|x mine IH]; intros e.
  - cbn. destruct e as [r f i]. cbn. do 2 f_equal; [lia|].
    by rewrite app_nil_r.
  - cbn [fold_left]. unfold aggregate_entry at 2. rewrite IH.
    cbn [rec frequency relatedIncidents map List.length].
    do 2 f_equal; [lia|]. by rewrite <- app_assoc.
Qed.

Lemma recommendationMap_get (l : list analysis) (k : string) :
  obj_get (recommendationMap l) k
  = match matching action_of k (issued l) with
    | [] => None
    | ar :: mine =>
        Some {| rec := ar.2;
                frequency := S (List.length mine);
                relatedIncidents := map incident (ar :: mine) |}
    end.
Proof.
  unfold recommendationMap. rewrite fold_update_get. cbn [obj_get].
  destruct (matching action_of k (issued l)) as [|ar mine]; [done|].
  cbn [fold_left]. unfold aggregate_entry at 2.
  rewrite aggregate_fold. cbn [rec frequency relatedIncidents map app].
  reflexivity.
Qed.

Lemma filter_map_pair {A B} (p : B → bool) (a : A) (l : list B) :
  List.filter (λ ab : A * B, p ab.2) (map (pair a) l)
  = map (pair a) (List.filter p l).
Proof.
  induction l as [|b l IH]; [done|]. cbn [map List.filter snd].
  destruct (p b); cbn [map]; by rewrite IH.
Qed.

(** An action is counted once for each analysis that gets it. *)
Lemma issued_count (l : list analysis) (k : string) :
  List.length (matching action_of k (issued l))
  = List.length
      (List.filter
         (λ a, bool_decide (k ∈ map action (generateRecommendations a))) l).
Proof.
  unfold matching, issued, pairs.
  induction l as [|a l IH]; [done|]. cbn [flat_map List.filter].
  rewrite List.filter_app, length_app, IH.
  unfold action_of. rewrite (filter_map_pair (λ r, String.eqb (action r) k)).
  rewrite length_map, (count_key_NoDup action) by apply actions_NoDup.
  by case_bool_decide.
Qed.

Lemma recommendationMap_entry (l : list analysis) (k : string)
    (e : aggregated) :
  obj_get (recommendationMap l) k = Some e →
  action (rec e) = k
  ∧ frequency e = List.length (relatedIncidents e)
  ∧ frequency e
    = List.length
        (List.filter
           (λ a, bool_decide (k ∈ map action (generateRecommendations a))) l)
  ∧ (1 <= frequency e <= List.length l)%nat.
Proof.
  rewrite recommendationMap_get. pose proof (issued_count l k) as Hc.
  destruct (matching action_of k (issued l)) as [|ar mine] eqn:E; [done|].
  intros [= <-]. cbn [rec frequency relatedIncidents].
  apply filter_head in E as [Hk _]. apply String.eqb_eq in Hk.
  split; [exact Hk|].
  split; [cbn [map List.length]; by rewrite ?length_map|].
  split; [exact Hc|]. cbn [List.length] in Hc. rewrite Hc.
  split; [lia | apply count_le_length].
Qed.

Lemma recommendationMap_NoDup (l : list analysis) :
  NoDup (recommendationMap l).*1.
Proof. apply fold_update_NoDup, NoDup_nil_2. Qed.

Lemma recommendationMap_values (l : list analysis) (e : aggregated) :
  e ∈ obj_values (recommendationMap l)
  ↔ obj_get (recommendationMap l) (action (rec e)) = Some e.
Proof.
  unfold obj_values. rewrite list_elem_of_fmap. split.
  - intros ([k e'] & -> & Hin). cbn [snd].
    apply obj_entries_elem_of in Hin; [|apply recommendationMap_NoDup].
    destruct (recommendationMap_entry l k e' Hin) as [-> _]. exact Hin.
  - intros H. exists (action (rec e), e). split; [done|].
    by apply obj_entries_elem_of; [apply recommendationMap_NoDup|].
Qed.

Lemma by_frequency_flip (a b : aggregated) :
  (0 < by_frequency a b)%Z → (by_frequency b a <= 0)%Z.
Proof. unfold by_frequency. lia. Qed.

Lemma by_frequency_trans (a b c : aggregated) :
  (by_frequency a b <= 0)%Z → (by_frequency b c <= 0)%Z →
  (by_frequency a c <= 0)%Z.
Proof. unfold by_frequency. lia. Qed.

Lemma audit_trail_issued (a : analysis) :
  action audit_trail ∈ map action (generateRecommendations a).
Proof.
  rewrite generateRecommendations_parts, map_app, elem_of_app. right.
  cbn [map]. right. by left.
Qed.

Lemma values_actions_NoDup (l : list analysis) :
  NoDup (map (λ e, action (rec e)) (obj_values (recommendationMap l))).
Proof.
  assert (H : map (λ e, action (rec e)) (obj_entries (recommendationMap l)).*2
              = (obj_entries (recommendationMap l)).*1).
  { assert (Hall : ∀ ke, ke ∈ obj_entries (recommendationMap l) →
                     action (rec ke.2) = ke.1).
    { intros [k e] Hin.
      apply obj_entries_elem_of in Hin; [|apply recommendationMap_NoDup].
      cbn [fst snd].
      by destruct (recommendationMap_entry l k e Hin) as [-> _]. }
    revert Hall. generalize (obj_entries (recommendationMap l)).
    intros kes Hall. induction kes as [|ke kes IH]; [done|].
    rewrite !fmap_cons. cbn [map].
    f_equal; [apply Hall; by left|].
    apply IH. intros ke' Hke'. apply Hall. by right. }
  unfold obj_values. rewrite H. fold (obj_keys (recommendationMap l)).
  rewrite obj_keys_perm. apply recommendationMap_NoDup.
Qed.

(** X23.  The aggregated recommendations are ten at most, with distinct
    actions, in descending order of frequency; the frequency of an
    entry is the number of analyses that get its action, which is also
    the number of its related incidents; and for a non-empty batch the
    first entry has the frequency of the whole batch, since the audit
    trail is recommended for every analysis. *)
Theorem aggregateRecommendations_summary (leakAnalyses : list analysis) :
  let agg := aggregateRecommendations leakAnalyses in
  (List.length agg <= 10)%nat
  ∧ NoDup (map (λ e, action (rec e)) agg)
  ∧ (∀ i j e e', agg !! i = Some e → agg !! j = Some e' → (i <= j)%nat →
       (frequency e' <= frequency e)%nat)
  ∧ (∀ e, e ∈ agg →
       frequency e = List.length (relatedIncidents e)
       ∧ frequency e
         = List.length
             (List.filter
                (λ a, bool_decide
                        (action (rec e)
                         ∈ map action (generateRecommendations a)))
                leakAnalyses)
       ∧ (1 <= frequency e <= List.length leakAnalyses)%nat)
  ∧ (leakAnalyses ≠ [] →
     ∃ e, head agg = Some e ∧ frequency e = List.length leakAnalyses).
Proof.
  cbv zeta. rewrite aggregateRecommendations_map.
  set (values := obj_values (recommendationMap leakAnalyses)).
  destruct (sort_take_top by_frequency by_frequency_flip by_frequency_trans
              values 10) as (Hperm & Hsorted & _).
  assert (Hval : ∀ e, e ∈ take 10 (sort by_frequency values) → e ∈ values).
  { intros e He. apply (subseteq_take 10) in He.
    by rewrite sort_perm in He. }
  assert (Hentry : ∀ e, e ∈ values →
            frequency e = List.length (relatedIncidents e)
            ∧ frequency e
              = List.length
                  (List.filter
                     (λ a, bool_decide
                             (action (rec e)
                              ∈ map action (generateRecommendations a)))
                     leakAnalyses)
            ∧ (1 <= frequency e <= List.length leakAnalyses)%nat).
  { intros e He. apply recommendationMap_values in He.
    by destruct (recommendationMap_entry _ _ _ He) as (_ & ? & ? & ?). }
  split; [|split; [|split; [|split]]].
  - rewrite length_take. lia.
  - pose proof (values_actions_NoDup leakAnalyses) as Hnd.
    fold values in Hnd.
    rewrite <- (Permutation_map _ (sort_perm by_frequency values)) in Hnd.
    rewrite <- (take_drop 10 (sort by_frequency values)), map_app in Hnd.
    by apply NoDup_app in Hnd as [? _].
  - intros i j e e' He He' Hij.
    destruct (decide (i = j)) as [->|Hne];
      [rewrite He in He'; by injection He' as ->|].
    assert (H : JS.before by_frequency e e').
    { apply (strongly_sorted_lookup _ _ i j e e' Hsorted); [done | done | lia]. }
    unfold JS.before, by_frequency in H. lia.
  - intros e He. by apply Hentry, Hval.
  - intros Hne.
    assert (Haudit : ∃ e, e ∈ values
                          ∧ frequency e = List.length leakAnalyses).
    { destruct (obj_get (recommendationMap leakAnalyses) (action audit_trail))
        as [e|] eqn:E.
      - exists e. destruct (recommendationMap_entry _ _ _ E)
          as (Hk & _ & Hf & _).
        split; [apply recommendationMap_values; by rewrite Hk|].
        rewrite Hf. f_equal. clear.
        induction leakAnalyses as [|a l IH]; [done|]. cbn [List.filter].
        rewrite bool_decide_eq_true_2 by apply audit_trail_issued.
        by rewrite IH.
      - rewrite recommendationMap_get in E.
        pose proof (issued_count leakAnalyses (action audit_trail)) as Hc.
        destruct (matching action_of _ (issued leakAnalyses)); [|done].
        destruct leakAnalyses as [|a l]; [done|].
        cbn [List.filter] in Hc.
        rewrite bool_decide_eq_true_2 in Hc by apply audit_trail_issued.
        discriminate Hc. }
    destruct Haudit as (ea & Hea & Hfa).
    pose proof (sort_strongly_sorted by_frequency by_frequency_flip
                  by_frequency_trans values) as Hs.
    assert (Hin : ea ∈ sort by_frequency values) by (by rewrite sort_perm).
    assert (Hsub : ∀ e, e ∈ sort by_frequency values → e ∈ values)
      by (intros e He; by rewrite sort_perm in He).
    destruct (sort by_frequency values) as [|e0 rest];
      [by apply elem_of_nil in Hin|].
    exists e0. split; [done|].
    destruct (Hentry e0 (Hsub e0 ltac:(by left))) as (_ & _ & _ & Hle).
    apply StronglySorted_inv in Hs as [_ Hall]. rewrite Forall_forall in Hall.
    apply elem_of_cons in Hin as [->|Hin]; [done|].
    specialize (Hall ea Hin). unfold JS.before, by_frequency in Hall. lia.
Qed.
End Aggregation.

(** ** Leaks by type *)

Section LeaksByType.
Import JS Detection.

Lemma determineSeverity_max (current incoming : level) :
  severityMap (determineSeverity current incoming)
  = Z.max (severityMap current) (severityMap incoming).
Proof. by destruct current, incoming. Qed.

Lemma determineSeverity_choice (current incoming : level) :
  determineSeverity current incoming = current
  ∨ determineSeverity current incoming = incoming.
Proof. destruct current, incoming; auto. Qed.

Lemma severityMap_low (l : level) : (severityMap low <= severityMap l)%Z.
Proof. by destruct l. Qed.

Definition exposures (l : list analysis) : list (analysis * string) :=
  pairs dataExposed l.

Definition type_of_exposure (ad : analysis * string) : string := ad.2.

Definition leak_entry (ad : analysis * string) (ov : option leak_group)
  : leak_group :=
  let entry :=
    match ov with
    | Some e => e
    | None => {| leak_type := ad.2; instances := 0; leak_platforms := [];
                 leak_severity := low; records := 0 |}
    end in
  {| leak_type := leak_type entry;
     instances := instances entry + 1;
     leak_platforms := set_add (leak_platforms entry) (platform ad.1);
     leak_severity := determineSeverity (leak_severity entry) (riskLevel ad.1);
     records := records entry |}.

Definition aggregation (l : list analysis) : obj leak_group :=
  fold_left (update type_of_exposure leak_entry) (exposures l) [].

Definition summarized (item : leak_group) : leak_summary :=
  {| group := item; platformCount := List.length (leak_platforms item) |}.

Lemma aggregateLeaksByType_map (l : list analysis) :
  aggregateLeaksByType l = map summarized (obj_values (aggregation l)).
Proof.
  unfold aggregateLeaksByType, aggregation, exposures. cbv zeta.
  fold summarized. do 2 f_equal.
  exact (fold_pairs dataExposed
           (λ m a d, update type_of_exposure leak_entry m (a, d)) l []).
Qed.

Lemma leak_fold (mine : list (analysis * string)) (e : leak_group) :
  fold_left (λ ov x, Some (leak_entry x ov)) mine (Some e)
  = Some {| leak_type := leak_type e;
            instances := instances e + List.length mine;
            leak_platforms :=
              fold_left set_add (map (λ ad, platform ad.1) mine)
                (leak_platforms e);
            leak_severity :=
              fold_left determineSeverity (map (λ ad, riskLevel ad.1) mine)
                (leak_severity e);
            records := records e |}.
Proof.
  revert e. induction mine as [|x mine IH]; intros e.
  - cbn. destruct e. cbn. do 2 f_equal. lia.
  - cbn [fold_left]. unfold leak_entry at 2. rewrite IH.
    cbn [leak_type instances leak_platforms leak_severity records map
         fold_left List.length].
    do 2 f_equal. lia.
Qed.

Lemma aggregation_get (l : list analysis) (d : string) :
  obj_get (aggregation l) d
  = match matching type_of_exposure d (exposures l) with
    | [] => None
    | mine =>
        Some {| leak_type := d;
                instances := List.length mine;
                leak_platforms := distinct (map (λ ad, platform ad.1) mine);
                leak_severity :=
                  fold_left determineSeverity
                    (map (λ ad, riskLevel ad.1) mine) low;
                records := 0 |}
    end.
Proof.
  unfold aggregation. rewrite fold_update_get. cbn [obj_get].
  destruct (matching type_of_exposure d (exposures l)) as [|ad mine] eqn:E;
    [done|].
  apply filter_head in E as [Hd _]. apply String.eqb_eq in Hd.
  unfold type_of_exposure in Hd.
  cbn [fold_left]. unfold leak_entry at 2. rewrite leak_fold.
  cbn [leak_type instances leak_platforms leak_severity records map
       fold_left List.length]. unfold distinct. cbn [fold_left].
  by rewrite Hd.
Qed.

Lemma aggregation_NoDup (l : list analysis) : NoDup (aggregation l).*1.
Proof. apply fold_update_NoDup, NoDup_nil_2. Qed.

Lemma severity_fold_max (levels : list level) (s : level) :
  (severityMap s <= severityMap (fold_left determineSeverity levels s))%Z
  ∧ (∀ x, x ∈ levels →
       (severityMap x <= severityMap (fold_left determineSeverity levels s))%Z)
  ∧ (fold_left determineSeverity levels s = s
     ∨ fold_left determineSeverity levels s ∈ levels).
Proof.
  revert s. induction levels as [|x levels IH]; intros s.
  - cbn. split; [lia|]. split; [by intros ? ?%elem_of_nil | by left].
  - cbn [fold_left]. destruct (IH (determineSeverity s x)) as (H1 & H2 & H3).
    rewrite determineSeverity_max in H1. split; [lia|]. split.
    + intros y [->|Hy]%elem_of_cons; [lia | by apply H2].
    + destruct H3 as [H3|H3]; [|right; by right].
      rewrite H3. destruct (determineSeverity_choice s x) as [->| ->];
        [by left | right; by left].
Qed.

Lemma exposures_matching (l : list analysis) (d : string)
    (ad : analysis * string) :
  ad ∈ matching type_of_exposure d (exposures l)
  ↔ ad.1 ∈ l ∧ d ∈ dataExposed ad.1 ∧ ad.2 = d.
Proof.
  unfold matching. rewrite filter_all. destruct ad as [a d'].
  unfold exposures. rewrite pairs_elem. unfold type_of_exposure.
  cbn [fst snd]. rewrite String.eqb_eq. split.
  - by intros [[? ?] ->].
  - by intros (? & ? & ->).
Qed.

Lemma exposures_count (l : list analysis) (d : string) :
  List.length (matching type_of_exposure d (exposures l))
  = List.length
      (List.filter (λ x, String.eqb x d) (flat_map dataExposed l)).
Proof.
  unfold matching, exposures, pairs, type_of_exposure.
  induction l as [|a l IH]; [done|]. cbn [flat_map].
  rewrite !List.filter_app, !length_app, IH. f_equal.
  by rewrite (filter_map_pair (λ x, String.eqb x d)), length_map.
Qed.

(** X24.  The aggregation by type has one entry for each data type that
    some analysis exposes.  The entry counts the exposures of the type,
    lists the platforms of the analyses that expose it, once each, with
    their number, and its severity is the highest risk level among those
    analyses. *)
Theorem aggregateLeaksByType_summary (leakAnalyses : list analysis) :
  let agg := aggregateLeaksByType leakAnalyses in
  NoDup (map (λ s, leak_type (group s)) agg)
  ∧ (∀ d, (∃ s, s ∈ agg ∧ leak_type (group s) = d)
          ↔ ∃ a, a ∈ leakAnalyses ∧ d ∈ dataExposed a)
  ∧ ∀ s, s ∈ agg →
      let d := leak_type (group s) in
      instances (group s)
      = List.length
          (List.filter (λ x, String.eqb x d)
             (flat_map dataExposed leakAnalyses))
      ∧ records (group s) = 0%nat
      ∧ NoDup (leak_platforms (group s))
      ∧ (∀ p, p ∈ leak_platforms (group s)
              ↔ ∃ a, a ∈ leakAnalyses ∧ d ∈ dataExposed a ∧ platform a = p)
      ∧ platformCount s = List.length (leak_platforms (group s))
      ∧ (∀ a, a ∈ leakAnalyses → d ∈ dataExposed a →
           (severityMap (riskLevel a)
            <= severityMap (leak_severity (group s)))%Z)
      ∧ ∃ a, a ∈ leakAnalyses ∧ d ∈ dataExposed a
             ∧ leak_severity (group s) = riskLevel a.
Proof.
  cbv zeta. rewrite aggregateLeaksByType_map.
  assert (Hval : ∀ s, s ∈ map summarized (obj_values (aggregation leakAnalyses))
            ↔ ∃ g, s = summarized g
                   ∧ obj_get (aggregation leakAnalyses) (leak_type g) = Some g).
  { intros s. rewrite list_elem_of_In, in_map_iff. unfold obj_values.
    split.
    - intros (g & <- & Hg). exists g. split; [done|].
      apply list_elem_of_In, list_elem_of_fmap in Hg as ([k g'] & -> & Hin).
      cbn [snd].
      apply obj_entries_elem_of in Hin; [|apply aggregation_NoDup].
      pose proof Hin as Hin'. rewrite aggregation_get in Hin'.
      destruct (matching _ k _); [done|]. injection Hin' as <-.
      exact Hin.
    - intros (g & -> & Hg). exists g. split; [done|].
      apply list_elem_of_In, list_elem_of_fmap. exists (leak_type g, g).
      split; [done|].
      by apply obj_entries_elem_of; [apply aggregation_NoDup|]. }
  split; [|split].
  - assert (H : map (λ s, leak_type (group s))
                  (map summarized (obj_entries (aggregation leakAnalyses)).*2)
                = (obj_entries (aggregation leakAnalyses)).*1).
    { assert (Hall : ∀ kg, kg ∈ obj_entries (aggregation leakAnalyses) →
                       leak_type kg.2 = kg.1).
      { intros [k g] Hin.
        apply obj_entries_elem_of in Hin; [|apply aggregation_NoDup].
        rewrite aggregation_get in Hin.
        destruct (matching _ k _); [done|]. by injection Hin as <-. }
      revert Hall. generalize (obj_entries (aggregation leakAnalyses)).
      intros kgs Hall. induction kgs as [|kg kgs IH]; [done|].
      rewrite !fmap_cons. cbn [map summarized group].
      f_equal; [apply Hall; by left|].
      apply IH. intros kg' Hkg'. apply Hall. by right. }
    unfold obj_values. rewrite H. fold (obj_keys (aggregation leakAnalyses)).
    rewrite obj_keys_perm. apply aggregation_NoDup.
  - intros d. split.
    + intros (s & (g & -> & Hg)%Hval & Hd). cbn [summarized group] in Hd.
      subst d. rewrite aggregation_get in Hg.
      destruct (matching _ _ _) as [|[a d'] mine] eqn:E; [done|].
      assert (Hin : (a, d') ∈ matching type_of_exposure (leak_type g)
                                (exposures leakAnalyses))
        by (rewrite E; by left).
      apply exposures_matching in Hin as (Ha & Hd & _). by exists a.
    + intros (a & Ha & Hd).
      assert (Hin : (a, d) ∈ matching type_of_exposure d
                               (exposures leakAnalyses))
        by (by apply exposures_matching).
      pose proof (aggregation_get leakAnalyses d) as Hg.
      destruct (matching _ d _) as [|ad mine] eqn:E;
        [by apply elem_of_nil in Hin|].
      cbv zeta in Hg.
      match type of Hg with _ = Some ?g0 => set (g := g0) in * end.
      exists (summarized g). split; [|reflexivity].
      apply Hval. exists g. split; [reflexivity | exact Hg].
  - intros s (g & -> & Hg)%Hval. cbn [summarized group platformCount].
    set (d := leak_type g) in *.
    rewrite aggregation_get in Hg.
    pose proof (exposures_count leakAnalyses d) as Hcount.
    pose proof (exposures_matching leakAnalyses d) as Hmine.
    destruct (matching type_of_exposure d (exposures leakAnalyses))
      as [|ad0 mine0] eqn:E; [done|].
    set (mine := ad0 :: mine0) in *.
    apply (inj Some) in Hg. rewrite <- Hg.
    cbn [instances records leak_platforms leak_severity].
    split; [exact Hcount|]. split; [done|].
    split; [apply distinct_NoDup|]. split; [|split; [done|split]].
    + intros p. rewrite distinct_elem, list_elem_of_In, in_map_iff. split.
      * intros ([a d'] & <- & Hin). apply list_elem_of_In, Hmine in Hin.
        cbn [fst snd] in Hin. exists a. tauto.
      * intros (a & Ha & Hd & <-). exists (a, d). split; [done|].
        apply list_elem_of_In, Hmine. done.
    + intros a Ha Hd.
      destruct (severity_fold_max (map (λ ad, riskLevel ad.1) mine) low)
        as (_ & H & _).
      apply H, list_elem_of_In, in_map_iff. exists (a, d). split; [done|].
      apply list_elem_of_In, Hmine. done.
    + destruct (severity_fold_max (map (λ ad, riskLevel ad.1) mine) low)
        as (_ & Hmax & [Hlow|Hin]).
      * destruct ad0 as [a d'].
        assert (Ha : (a, d') ∈ mine) by (by left).
        apply Hmine in Ha as (Ha & Hd & _). cbn [fst] in Ha, Hd.
        exists a. split; [done|]. split; [done|]. rewrite Hlow.
        assert (Hle : (severityMap (riskLevel a) <= severityMap low)%Z).
        { assert (Hx : riskLevel a ∈ map (λ ad, riskLevel ad.1) mine).
          { apply list_elem_of_In, in_map_iff.
            exists (a, d'). split; [done | by left]. }
          apply Hmax in Hx. by rewrite Hlow in Hx. }
        by destruct (riskLevel a).
      * apply list_elem_of_In, in_map_iff in Hin as ([a d'] & Heq & Hin).
        apply list_elem_of_In, Hmine in Hin as (Ha & Hd & _).
        cbn [fst] in *. exists a. by rewrite <- Heq.
Qed.
End LeaksByType.

(** ** Quiet content and the monitoring service *)

Section QuietContent.
Import JS Regex Detection.

Lemma filter_nil_inv {A} (p : A → bool) (l : list A) (x : A) :
  List.filter p l = [] → In x l → p x = false.
Proof.
  intros E Hin. destruct (p x) eqn:Hp; [|done].
  assert (H : In x (List.filter p l)) by (by apply filter_In).
  rewrite E in H. destruct H.
Qed.

Lemma detectKeywords_nil (content kw : string) :
  detectKeywords content = [] → In kw monitoredKeywords →
  includes (toLowerCase content) (toLowerCase kw) = false.
Proof.
  rewrite detectKeywords_map. intros E%map_eq_nil Hin.
  by apply (filter_nil_inv _ _ kw) in E.
Qed.

(** X25.  A text in which the keyword pass and the pattern pass find
    nothing is of low risk, with confidence 0; the only categories it
    can still get are those inferred from the text alone, and its
    recommendations are the two standing ones. *)
Theorem analyzeSocialMediaContent_quiet
    (content platform username timestamp : string) :
  detectKeywords content = [] →
  detectSuspiciousPatterns content = [] →
  let a := analyzeSocialMediaContent content platform username timestamp in
  riskLevel a = low
  ∧ confidenceScore a = 0%nat
  ∧ (∀ d, d ∈ dataExposed a →
       d = "Financial Data" ∨ d = "Strategic Information")
  ∧ generateRecommendations a = [removal_request a; audit_trail].
Proof.
  intros Hk Hp. cbv zeta.
  assert (Hv : includes (toLowerCase content) "vulnerability" = false).
  { apply (detectKeywords_nil content "vulnerability" Hk). cbn. tauto. }
  assert (He : includes (toLowerCase content) "exploit" = false).
  { apply (detectKeywords_nil content "exploit" Hk). cbn. tauto. }
  assert (Hd : ∃ fin strat : bool,
            classifyDataExposure content []
            = (if fin then ["Financial Data"] else [])
              ++ (if strat then ["Strategic Information"] else [])).
  { unfold classifyDataExposure. cbv zeta. cbn [fold_left].
    rewrite Hv, He. cbn [orb].
    exists (includes (toLowerCase content) "salary"
            || includes (toLowerCase content) "payment"),
      (includes (toLowerCase content) "project"
       || includes (toLowerCase content) "roadmap").
    destruct (_ || _), (_ || _); reflexivity. }
  destruct Hd as (fin & strat & Hd).
  rewrite generateRecommendations_parts.
  unfold conditional, analyzeSocialMediaContent. cbv zeta.
  cbn [riskLevel confidenceScore dataExposed suspiciousElements].
  rewrite Hk, Hp, Hd. cbn [existsb].
  split; [by destruct fin, strat|]. split; [reflexivity|]. split.
  - intros d. destruct fin, strat; cbn [app];
      rewrite ?elem_of_cons, elem_of_nil; tauto.
  - rewrite bool_decide_eq_false_2 by (by destruct fin, strat).
    rewrite !bool_decide_eq_false_2; [done|..];
      destruct fin, strat; cbn [app];
      rewrite ?elem_of_cons, elem_of_nil; intros H;
      repeat destruct H as [H|H]; done.
Qed.

Lemma analyzeSocialMediaContent_quiet_witness :
  detectKeywords "see you at noon" = []
  ∧ detectSuspiciousPatterns "see you at noon" = []
  ∧ riskLevel (analyzeSocialMediaContent "see you at noon" "x" "u" "t") = low.
Proof.
  assert (Hk : detectKeywords "see you at noon" = []) by (vm_compute; reflexivity).
  assert (Hp : detectSuspiciousPatterns "see you at noon" = [])
    by (vm_compute; reflexivity).
  split; [exact Hk|]. split; [exact Hp|].
  exact (proj1 (analyzeSocialMediaContent_quiet _ "x" "u" "t" Hk Hp)).
Defined.
End QuietContent.

Section MonitoringFacts.
Import JS Monitoring.

Definition all_platforms : list string :=
  [ "twitter"; "linkedin"; "reddit"; "facebook"; "instagram"; "github";
    "darkweb" ].

(** The states of the service that its operations can reach from the
    state of a new service. *)
Inductive reachable : gmap string monitoring → Prop :=
| reachable_new : reachable ∅
| reachable_initialize clock_start clock_id keywords m :
    reachable m →
    reachable (initializeKeywordMonitoring clock_start clock_id keywords m).2
| reachable_stop now id m :
    reachable m → reachable (stopKeywordMonitoring now id m).2.

Definition well_formed (mon : monitoring) : Prop :=
  results mon = []
  ∧ monitored_platforms mon = all_platforms
  ∧ (status mon = STOPPED ↔ is_Some (endTime mon)).

Lemma reachable_well_formed (m : gmap string monitoring) :
  reachable m → ∀ id mon, m !! id = Some mon → well_formed mon.
Proof.
  induction 1 as [|c0 cid kws m Hm IH|now id' m Hm IH]; intros id mon.
  - by rewrite lookup_empty.
  - cbn [initializeKeywordMonitoring snd].
    destruct (decide (String.append "monitor_" (pretty cid) = id)) as [<-|Hne].
    + rewrite lookup_insert_eq. intros [= <-]. split; [done|].
      split; [reflexivity|]. cbn. split; [done | by intros [? ?]].
    + rewrite lookup_insert_ne by done. apply IH.
  - unfold stopKeywordMonitoring.
    destruct (m !! id') as [mon'|] eqn:E; cbn [snd]; [|apply IH].
    destruct (decide (id' = id)) as [<-|Hne].
    + rewrite lookup_insert_eq. intros [= <-].
      destruct (IH _ _ E) as (Hr & Hp & _). split; [done|].
      split; [done|]. cbn. split; [by eexists | done].
    + rewrite lookup_insert_ne by done. apply IH.
Qed.

(** X26.  No operation of the service records a result: in every state
    the service can reach, stopping a monitoring reports no result
    found, and a monitoring report has no result, an empty tally by
    platform and the seven platforms of the service. *)
Theorem monitoring_never_collects (m : gmap string monitoring)
    (now : Z) (id : string) :
  reachable m →
  match stopKeywordMonitoring now id m with
  | (Stopped _ found, _) => found = 0%nat
  | (StopError _, m') => m !! id = None ∧ m' = m
  end
  ∧ match getMonitoringReport now id m with
    | Report r =>
        totalResults r = 0%nat ∧ resultsByPlatform r = []
        ∧ report_platforms r = all_platforms
        ∧ (report_status r = ACTIVE → report_endTime r = now)
    | ReportError _ => m !! id = None
    end.
Proof.
  intros Hm. pose proof (reachable_well_formed m Hm id) as Hwf.
  unfold stopKeywordMonitoring, getMonitoringReport.
  destruct (m !! id) as [mon|]; [|done].
  destruct (Hwf mon eq_refl) as (Hr & Hp & Hs).
  cbn [totalResults resultsByPlatform report_platforms report_status
       report_endTime].
  rewrite Hr, Hp. split; [done|]. split; [done|]. split; [done|].
  split; [done|]. intros Ha.
  destruct (endTime mon) as [t|]; [|done].
  destruct Hs as [_ Hs]. rewrite Hs in Ha by (by eexists). done.
Qed.

Lemma monitoring_never_collects_witness :
  let m := (initializeKeywordMonitoring 5 7 ["token"] ∅).2 in
  reachable m
  ∧ match stopKeywordMonitoring 9 "monitor_7" m with
    | (Stopped _ found, _) => found = 0%nat
    | (StopError _, m') => m !! "monitor_7" = None ∧ m' = m
    end.
Proof.
  intros m.
  assert (H : reachable m) by (apply reachable_initialize, reachable_new).
  split; [exact H|].
  exact (proj1 (monitoring_never_collects m 9 "monitor_7" H)).
Defined.

(** X27.  The life of a monitoring: once initialized it is reported as
    active, with its keywords, the seven platforms and its start time;
    stopping it returns the time elapsed since the start and marks it
    stopped at that time; a later stop is accepted again and moves the
    end time. *)
Theorem monitoring_lifecycle (clock_start clock_id stop1 stop2 now : Z)
    (tracked : list string) (m0 : gmap string monitoring) :
  let '(s, m1) :=
    initializeKeywordMonitoring clock_start clock_id tracked m0 in
  let id := monitoringId s in
  let '(out1, m2) := stopKeywordMonitoring stop1 id m1 in
  let '(out2, m3) := stopKeywordMonitoring stop2 id m2 in
  let report m status endTime :=
    getMonitoringReport now id m
    = Report {| report_monitoringId := id;
                report_keywords := tracked;
                report_status := status;
                report_platforms := all_platforms;
                report_startTime := clock_start;
                report_endTime := endTime;
                totalResults := 0;
                resultsByPlatform := [] |} in
  id = String.append "monitor_" (pretty clock_id)
  ∧ keywordsTracked s = List.length tracked
  ∧ platformsCovered s = 7%nat
  ∧ report m1 ACTIVE now
  ∧ out1 = Stopped (stop1 - clock_start) 0
  ∧ report m2 STOPPED stop1
  ∧ out2 = Stopped (stop2 - clock_start) 0
  ∧ report m3 STOPPED stop2
  ∧ ∀ other, other ≠ id → m3 !! other = m0 !! other.
Proof.
  unfold initializeKeywordMonitoring. cbv zeta.
  cbn [monitoringId keywordsTracked platformsCovered monitored_platforms].
  unfold stopKeywordMonitoring. rewrite lookup_insert_eq.
  cbn [keywords monitored_platforms startTime results status endTime].
  rewrite lookup_insert_eq.
  cbn [keywords monitored_platforms startTime results status endTime].
  unfold getMonitoringReport. rewrite !lookup_insert_eq.
  cbn [keywords monitored_platforms startTime results status endTime
       default from_option].
  repeat split. intros other Hne. by rewrite !lookup_insert_ne.
Qed.

End MonitoringFacts.
